(** * HdPrefixingSceneIndex: a namespace-prefixing scene index filter

    Shallow embedding of [pxr/imaging/hd/prefixingSceneIndex.cpp]:
    the path-valued data source proxy, the container data source proxy and
    the filtering scene index itself (prim queries, child enumeration and
    the three notification handlers). *)

From stdpp Require Import base strings list.

Open Scope string_scope.
Open Scope list_scope.

Set Warnings "-register-all".

(** ** Tokens *)

(** [TfToken]: an interned string.  [TfToken()] is the empty token. *)
Definition TfToken : Type := string.
Definition TfToken_empty : TfToken := "".

(** ** Path algebra (SdfPath) *)

(** Modelled from the spec: the class [SdfPath] (pxr/usd/sdf/path.cpp) is
    not part of the sources at hand.  The spec describes a path as an
    immutable, hierarchical, slash-delimited sequence of name tokens that is
    either absolute (anchored at the distinguished root) or relative, with
    structural equality; the proxy code also uses the default-constructed
    empty path [SdfPath()], which is neither. *)
Inductive SdfPath : Type :=
| SdfPath_Empty
| SdfPath_Absolute (elems : list TfToken)
| SdfPath_Relative (elems : list TfToken).

#[global] Instance SdfPath_eq_dec : EqDecision SdfPath.
Proof. solve_decision. Defined.

(** [SdfPath::AbsoluteRootPath()], the path [/]. *)
Definition AbsoluteRootPath : SdfPath := SdfPath_Absolute [].

(** [SdfPath::ReflexiveRelativePath()], the path [.]. *)
Definition ReflexiveRelativePath : SdfPath := SdfPath_Relative [].

Definition path_elems (p : SdfPath) : list TfToken :=
  match p with
  | SdfPath_Empty => []
  | SdfPath_Absolute e | SdfPath_Relative e => e
  end.

(** The path with the anchoring of [p] and the name tokens [e]. *)
Definition path_with_elems (p : SdfPath) (e : list TfToken) : SdfPath :=
  match p with
  | SdfPath_Empty => SdfPath_Empty
  | SdfPath_Absolute _ => SdfPath_Absolute e
  | SdfPath_Relative _ => SdfPath_Relative e
  end.

Definition IsEmpty (p : SdfPath) : bool :=
  match p with SdfPath_Empty => true | _ => false end.

Definition IsAbsolutePath (p : SdfPath) : bool :=
  match p with SdfPath_Absolute _ => true | _ => false end.

(** Modelled from the spec: [GetPathElementCount()], the number of name
    tokens of the path; the absolute root has none. *)
Definition GetPathElementCount (p : SdfPath) : nat := length (path_elems p).

(** Modelled from the spec: [HasPrefix(other)], the prefix test.  It compares
    whole name tokens, never characters ([/AB/C] does not have prefix [/A]),
    a path is a prefix of itself, and the absolute root is a prefix of every
    absolute path.  The empty path has no prefix and is a prefix of
    nothing. *)
Definition HasPrefix (p prefix : SdfPath) : bool :=
  match p, prefix with
  | SdfPath_Absolute e, SdfPath_Absolute pre
  | SdfPath_Relative e, SdfPath_Relative pre => bool_decide (pre `prefix_of` e)
  | _, _ => false
  end.

(** Modelled from the spec: [ReplacePrefix(old, new)], a replacement on the
    token sequence that is a no-op when [old] is not a prefix.  The result
    takes the anchoring of [new]; replacing by the empty path gives the
    empty path. *)
Definition ReplacePrefix (p oldPrefix newPrefix : SdfPath) : SdfPath :=
  if HasPrefix p oldPrefix then
    path_with_elems newPrefix
      (path_elems newPrefix ++ drop (length (path_elems oldPrefix)) (path_elems p))
  else p.

(** Modelled from the spec: [GetPrefixes()], the ancestor chain of the path
    ordered from the root side down to the path itself, which is its last
    element.  The chain has one entry per name token (the root, which has no
    token, is not an entry), as the indexing by [GetPathElementCount()] in
    [GetChildPrimPaths] and the junction example of the spec
    ([/A] is entry 0 of the chain of [/A/B/C/D]) require. *)
Definition GetPrefixes (p : SdfPath) : list SdfPath :=
  (fun n => path_with_elems p (take n (path_elems p)))
    <$> seq 1 (length (path_elems p)).

(** Modelled from the spec: [AppendPath(suffix)], the path followed by the
    tokens of a relative suffix.  Nothing can be appended to, or taken from,
    the empty path, and an absolute suffix cannot be appended: these give
    the empty path. *)
Definition AppendPath (p suffix : SdfPath) : SdfPath :=
  match suffix with
  | SdfPath_Relative s => path_with_elems p (path_elems p ++ s)
  | _ => SdfPath_Empty
  end.

(** Modelled from the spec: [MakeRelativePath(anchor)], the relative form of
    the path from an absolute anchor: the shared leading tokens are dropped
    and each remaining token of the anchor is climbed with a parent step.
    A relative path is already in that form. *)
Definition MakeRelativePath (p anchor : SdfPath) : SdfPath :=
  match anchor, p with
  | SdfPath_Absolute a, SdfPath_Absolute e =>
      let '(up, down, _) := max_prefix a e in
      SdfPath_Relative (replicate (length up) ".." ++ down)
  | SdfPath_Absolute _, SdfPath_Relative e => SdfPath_Relative e
  | _, _ => SdfPath_Empty
  end.

(** ** Failure of a call *)

(** The C++ operations that have no result: a member call through a null
    [TfRefPtr] handle (a fatal error of the pointer class) and an index past
    the end of a [std::vector]. *)
Inductive Fault : Type :=
| NullDereference
| IndexOutOfRange.

Inductive Outcome (A : Type) : Type :=
| Ok (a : A)
| Fatal (f : Fault).
Arguments Ok {A} a.
Arguments Fatal {A} f.

#[global] Instance Outcome_ret : MRet Outcome := fun A a => Ok a.
#[global] Instance Outcome_bind : MBind Outcome := fun A B k c =>
  match c with
  | Ok a => k a
  | Fatal f => Fatal f
  end.

(** [h->...]: a member call through a handle. *)
Definition deref {A : Type} (h : option A) : Outcome A :=
  match h with
  | Some a => Ok a
  | None => Fatal NullDereference
  end.

(** [v[i]] on a [std::vector]. *)
Definition index {A : Type} (v : list A) (i : nat) : Outcome A :=
  match v !! i with
  | Some a => Ok a
  | None => Fatal IndexOutOfRange
  end.

(** ** Values and data sources *)

(** [VtValue]: the type-erased value envelope; the proxy only ever puts a
    path into it. *)
Inductive VtValue : Type :=
| VtValue_Empty
| VtValue_SdfPath (p : SdfPath).

(** [HdDataSourceLocatorSet]: a set of locators, each a sequence of tokens.
    The filter only copies it. *)
Definition HdDataSourceLocatorSet : Type := list (list TfToken).

(** ** Notification entries *)

(** [HdSceneIndexObserver::AddedPrimEntry], [RemovedPrimEntry] and
    [DirtiedPrimEntry]. *)
Record AddedPrimEntry : Type := mkAddedPrimEntry {
  added_primPath : SdfPath;
  added_primType : TfToken;
}.

Record RemovedPrimEntry : Type := mkRemovedPrimEntry {
  removed_primPath : SdfPath;
}.

Record DirtiedPrimEntry : Type := mkDirtiedPrimEntry {
  dirtied_primPath : SdfPath;
  dirtied_dirtyLocators : HdDataSourceLocatorSet;
}.

(** One call of an observer: [PrimsAdded], [PrimsRemoved] or [PrimsDirtied]
    with its batch. *)
Inductive Notice : Type :=
| PrimsAdded (entries : list AddedPrimEntry)
| PrimsRemoved (entries : list RemovedPrimEntry)
| PrimsDirtied (entries : list DirtiedPrimEntry).

(** A registered observer, known by its identity. *)
Definition HdSceneIndexObserverPtr : Type := nat.

Section DataSources.

(** [HdSampledDataSource::Time] is a [float] shutter offset.  The code
    under study only hands it on to the wrapped data source, so the
    development is parametric in it. *)
Variable Time : Type.

(** [HdTypedSampledDataSource<SdfPath>]: either a path data source of the
    upstream scene, given by its two virtual methods, or the proxy class
    of this file with its two fields.  A handle is an [option]; [None] is
    the null handle. *)
Inductive HdPathDataSource : Type :=
| UpstreamPathDataSource
    (typedValue : Time -> SdfPath)
    (sampleTimes : Time -> Time -> list Time -> bool * list Time)
| Hd_PrefixingSceneIndexPathDataSource
    (_prefix : SdfPath)
    (_inputDataSource : option HdPathDataSource).

Definition HdPathDataSourceHandle : Type := option HdPathDataSource.

(** [HdContainerDataSource] and [HdDataSourceBase].  A container is either
    one of the upstream scene, given by its three virtual methods, or the
    proxy class of this file.  A data source is a container, a path data
    source, or an object of any other class, known here only by its
    identity. *)
Inductive HdContainerDataSource : Type :=
| UpstreamContainerDataSource
    (has : TfToken -> bool)
    (names : list TfToken)
    (get : TfToken -> option HdDataSourceBase)
| Hd_PrefixingSceneIndexContainerDataSource
    (_prefix : SdfPath)
    (_inputDataSource : option HdContainerDataSource)
with HdDataSourceBase : Type :=
| ContainerDataSource (c : HdContainerDataSource)
| PathDataSource (p : HdPathDataSource)
| OtherDataSource (object : nat).

Definition HdContainerDataSourceHandle : Type := option HdContainerDataSource.
Definition HdDataSourceBaseHandle : Type := option HdDataSourceBase.

(** [HdContainerDataSource::Cast] and
    [HdTypedSampledDataSource<SdfPath>::Cast]: the dynamic casts of a
    non-null handle; a failed cast is the null handle. *)
Definition HdContainerDataSource_Cast (d : HdDataSourceBase)
  : HdContainerDataSourceHandle :=
  match d with ContainerDataSource c => Some c | _ => None end.

Definition HdPathDataSource_Cast (d : HdDataSourceBase)
  : HdPathDataSourceHandle :=
  match d with PathDataSource p => Some p | _ => None end.

(** *** Hd_PrefixingSceneIndexPathDataSource *)

Fixpoint GetTypedValue (self : HdPathDataSource) (shutterOffset : Time)
  : SdfPath :=
  match self with
  | UpstreamPathDataSource typedValue _ => typedValue shutterOffset
  | Hd_PrefixingSceneIndexPathDataSource _prefix _inputDataSource =>
      match _inputDataSource with
      | None => SdfPath_Empty
      | Some input =>
          let result := GetTypedValue input shutterOffset in
          if IsAbsolutePath result
          then ReplacePrefix result AbsoluteRootPath _prefix
          else result
      end
  end.

Definition GetValue (self : HdPathDataSource) (shutterOffset : Time)
  : VtValue :=
  VtValue_SdfPath (GetTypedValue self shutterOffset).

(** The out-parameter [outSampleTimes] is passed in and handed back. *)
Fixpoint GetContributingSampleTimesForInterval
    (self : HdPathDataSource) (startTime endTime : Time)
    (outSampleTimes : list Time) : bool * list Time :=
  match self with
  | UpstreamPathDataSource _ sampleTimes =>
      sampleTimes startTime endTime outSampleTimes
  | Hd_PrefixingSceneIndexPathDataSource _ _inputDataSource =>
      match _inputDataSource with
      | Some input =>
          GetContributingSampleTimesForInterval
            input startTime endTime outSampleTimes
      | None => (false, outSampleTimes)
      end
  end.

(** *** Hd_PrefixingSceneIndexContainerDataSource *)

Fixpoint Has (self : HdContainerDataSource) (name : TfToken) : bool :=
  match self with
  | UpstreamContainerDataSource has _ _ => has name
  | Hd_PrefixingSceneIndexContainerDataSource _ _inputDataSource =>
      match _inputDataSource with
      | Some input => Has input name
      | None => false
      end
  end.

Fixpoint GetNames (self : HdContainerDataSource) : list TfToken :=
  match self with
  | UpstreamContainerDataSource _ names _ => names
  | Hd_PrefixingSceneIndexContainerDataSource _ _inputDataSource =>
      match _inputDataSource with
      | Some input => GetNames input
      | None => []
      end
  end.

Fixpoint Get (self : HdContainerDataSource) (name : TfToken)
  : HdDataSourceBaseHandle :=
  match self with
  | UpstreamContainerDataSource _ _ get => get name
  | Hd_PrefixingSceneIndexContainerDataSource _prefix _inputDataSource =>
      match _inputDataSource with
      | None => None
      | Some input =>
          match Get input name with
          | Some childSource =>
              match HdContainerDataSource_Cast childSource with
              | Some childContainer =>
                  Some (ContainerDataSource
                          (Hd_PrefixingSceneIndexContainerDataSource
                             _prefix (Some childContainer)))
              | None =>
                  match HdPathDataSource_Cast childSource with
                  | Some childPathDataSource =>
                      Some (PathDataSource
                              (Hd_PrefixingSceneIndexPathDataSource
                                 _prefix (Some childPathDataSource)))
                  | None => Some childSource
                  end
              end
          | None => None
          end
      end
  end.


(** ** The scene index *)

(** [HdSceneIndexPrim]: a prim type and a container handle.  The empty type
    with the null handle stands for no prim. *)
Record HdSceneIndexPrim : Type := mkHdSceneIndexPrim {
  primType : TfToken;
  dataSource : HdContainerDataSourceHandle;
}.

(** [HdSceneIndexBase], the interface of the input scene: its two query
    methods. *)
Record HdSceneIndexBase : Type := mkHdSceneIndexBase {
  input_GetPrim : SdfPath -> HdSceneIndexPrim;
  input_GetChildPrimPaths : SdfPath -> list SdfPath;
}.

(** [HdPrefixingSceneIndex]: the input scene handle and the observer list
    of its base classes, and the prefix. *)
Record HdPrefixingSceneIndex : Type := mkHdPrefixingSceneIndex {
  _inputSceneIndex : option HdSceneIndexBase;
  _prefix : SdfPath;
  _observers : list HdSceneIndexObserverPtr;
}.

Definition _GetInputSceneIndex (self : HdPrefixingSceneIndex)
  : option HdSceneIndexBase :=
  _inputSceneIndex self.

Definition _AddPathPrefix (self : HdPrefixingSceneIndex) (primPath : SdfPath)
  : SdfPath :=
  ReplacePrefix primPath AbsoluteRootPath (_prefix self).

Definition _RemovePathPrefix (self : HdPrefixingSceneIndex) (primPath : SdfPath)
  : SdfPath :=
  ReplacePrefix primPath (_prefix self) AbsoluteRootPath.

Definition GetPrim (self : HdPrefixingSceneIndex) (primPath : SdfPath)
  : Outcome HdSceneIndexPrim :=
  if negb (HasPrefix primPath (_prefix self)) then
    mret {| primType := TfToken_empty; dataSource := None |}
  else
    input ← deref (_GetInputSceneIndex self);
    let prim := input_GetPrim input (_RemovePathPrefix self primPath) in
    match dataSource prim with
    | Some ds =>
        mret {| primType := primType prim;
                dataSource :=
                  Some (Hd_PrefixingSceneIndexContainerDataSource
                          (_prefix self) (Some ds)) |}
    | None => mret prim
    end.

Definition GetChildPrimPaths (self : HdPrefixingSceneIndex) (primPath : SdfPath)
  : Outcome (list SdfPath) :=
  if HasPrefix primPath (_prefix self) then
    input ← deref (_GetInputSceneIndex self);
    let result :=
      input_GetChildPrimPaths input (_RemovePathPrefix self primPath) in
    mret ((fun path =>
             AppendPath (_prefix self)
               (MakeRelativePath path AbsoluteRootPath)) <$> result)
  else if HasPrefix (_prefix self) primPath then
    next ← index (GetPrefixes (_prefix self)) (GetPathElementCount primPath);
    mret [next]
  else
    mret [].

(** *** Notifications *)

(** Modelled from the spec: [_SendPrimsAdded], [_SendPrimsRemoved] and
    [_SendPrimsDirtied] of the base class [HdSceneIndexBase]
    (pxr/imaging/hd/sceneIndex.cpp) are not part of the sources at hand.
    The spec has the translated batch delivered, as a single batch, to each
    of the provider's own registered observers.  The result lists the
    observer calls made, in order. *)
Definition _SendPrimsAdded (self : HdPrefixingSceneIndex)
    (entries : list AddedPrimEntry)
  : list (HdSceneIndexObserverPtr * Notice) :=
  (fun observer => (observer, PrimsAdded entries)) <$> _observers self.

Definition _SendPrimsRemoved (self : HdPrefixingSceneIndex)
    (entries : list RemovedPrimEntry)
  : list (HdSceneIndexObserverPtr * Notice) :=
  (fun observer => (observer, PrimsRemoved entries)) <$> _observers self.

Definition _SendPrimsDirtied (self : HdPrefixingSceneIndex)
    (entries : list DirtiedPrimEntry)
  : list (HdSceneIndexObserverPtr * Notice) :=
  (fun observer => (observer, PrimsDirtied entries)) <$> _observers self.

(** The handlers fill [prefixedEntries] by one [emplace_back] or
    [push_back] per entry of the batch, then send it. *)
Definition _PrimsAdded (self : HdPrefixingSceneIndex)
    (entries : list AddedPrimEntry)
  : list (HdSceneIndexObserverPtr * Notice) :=
  let prefixedEntries :=
    foldl (fun prefixedEntries entry =>
             prefixedEntries ++
               [mkAddedPrimEntry
                  (_AddPathPrefix self (added_primPath entry))
                  (added_primType entry)])
          [] entries in
  _SendPrimsAdded self prefixedEntries.

Definition _PrimsRemoved (self : HdPrefixingSceneIndex)
    (entries : list RemovedPrimEntry)
  : list (HdSceneIndexObserverPtr * Notice) :=
  let prefixedEntries :=
    foldl (fun prefixedEntries entry =>
             prefixedEntries ++
               [mkRemovedPrimEntry
                  (_AddPathPrefix self (removed_primPath entry))])
          [] entries in
  _SendPrimsRemoved self prefixedEntries.

Definition _PrimsDirtied (self : HdPrefixingSceneIndex)
    (entries : list DirtiedPrimEntry)
  : list (HdSceneIndexObserverPtr * Notice) :=
  let prefixedEntries :=
    foldl (fun prefixedEntries entry =>
             prefixedEntries ++
               [mkDirtiedPrimEntry
                  (_AddPathPrefix self (dirtied_primPath entry))
                  (dirtied_dirtyLocators entry)])
          [] entries in
  _SendPrimsDirtied self prefixedEntries.

End DataSources.

Arguments UpstreamPathDataSource {Time} typedValue sampleTimes.
Arguments Hd_PrefixingSceneIndexPathDataSource {Time} _prefix _inputDataSource.
Arguments UpstreamContainerDataSource {Time} has names get.
Arguments Hd_PrefixingSceneIndexContainerDataSource {Time} _prefix _inputDataSource.
Arguments ContainerDataSource {Time} c.
Arguments PathDataSource {Time} p.
Arguments OtherDataSource {Time} object.
Arguments HdContainerDataSource_Cast {Time} d.
Arguments HdPathDataSource_Cast {Time} d.
Arguments GetTypedValue {Time} self shutterOffset.
Arguments GetValue {Time} self shutterOffset.
Arguments GetContributingSampleTimesForInterval {Time} self startTime endTime outSampleTimes.
Arguments Has {Time} self name.
Arguments GetNames {Time} self.
Arguments Get {Time} self name.
Arguments mkHdSceneIndexPrim {Time} primType dataSource.
Arguments primType {Time} h.
Arguments dataSource {Time} h.
Arguments mkHdSceneIndexBase {Time} input_GetPrim input_GetChildPrimPaths.
Arguments input_GetPrim {Time} h primPath.
Arguments input_GetChildPrimPaths {Time} h primPath.
Arguments mkHdPrefixingSceneIndex {Time} _inputSceneIndex _prefix _observers.
Arguments _inputSceneIndex {Time} h.
Arguments _prefix {Time} h.
Arguments _observers {Time} h.
Arguments _GetInputSceneIndex {Time} self.
Arguments _AddPathPrefix {Time} self primPath.
Arguments _RemovePathPrefix {Time} self primPath.
Arguments GetPrim {Time} self primPath.
Arguments GetChildPrimPaths {Time} self primPath.
Arguments _SendPrimsAdded {Time} self entries.
Arguments _SendPrimsRemoved {Time} self entries.
Arguments _SendPrimsDirtied {Time} self entries.
Arguments _PrimsAdded {Time} self entries.
Arguments _PrimsRemoved {Time} self entries.
Arguments _PrimsDirtied {Time} self entries.

(** ** A small scene, for the examples of the spec *)

(** Sample times of the example scene are frame numbers. *)
Definition Frame : Type := nat.

(** The prefix [/A/B/C/D] of the spec's examples, and the short prefix
    [/A]. *)
Definition prefix_ABCD : SdfPath := SdfPath_Absolute ["A"; "B"; "C"; "D"].
Definition prefix_A : SdfPath := SdfPath_Absolute ["A"].

(** An upstream path data source whose value is [/Foo/Bar] at every time,
    and one whose value is the relative path [Foo/Bar]. *)
Definition leaf_FooBar : HdPathDataSource Frame :=
  UpstreamPathDataSource
    (fun _ => SdfPath_Absolute ["Foo"; "Bar"])
    (fun _ _ out => (true, out)).

Definition leaf_rel_FooBar : HdPathDataSource Frame :=
  UpstreamPathDataSource
    (fun _ => SdfPath_Relative ["Foo"; "Bar"])
    (fun _ _ out => (true, out)).

(** An upstream container with a nested container [primvars], a path-typed
    leaf [target] and one other child [points]. *)
Definition container_inner : HdContainerDataSource Frame :=
  UpstreamContainerDataSource
    (fun name => bool_decide (name = "target"))
    ["target"]
    (fun name =>
       if bool_decide (name = "target")
       then Some (PathDataSource leaf_FooBar) else None).

Definition container_mesh : HdContainerDataSource Frame :=
  UpstreamContainerDataSource
    (fun name => bool_decide (name ∈ ["primvars"; "target"; "points"]))
    ["primvars"; "target"; "points"]
    (fun name =>
       if bool_decide (name = "primvars")
       then Some (ContainerDataSource container_inner)
       else if bool_decide (name = "target")
       then Some (PathDataSource leaf_FooBar)
       else if bool_decide (name = "points")
       then Some (OtherDataSource 7)
       else None).

(** An upstream scene with the prims [/X] (a mesh with data) and [/Y] (a
    prim without data) under its root. *)
Definition scene_XY : HdSceneIndexBase Frame :=
  mkHdSceneIndexBase
    (fun p =>
       if bool_decide (p = SdfPath_Absolute ["X"])
       then mkHdSceneIndexPrim "mesh" (Some container_mesh)
       else if bool_decide (p = SdfPath_Absolute ["Y"])
       then mkHdSceneIndexPrim "scope" None
       else mkHdSceneIndexPrim TfToken_empty None)
    (fun p =>
       if bool_decide (p = AbsoluteRootPath)
       then [SdfPath_Absolute ["X"]; SdfPath_Absolute ["Y"]]
       else []).

(** The filter over that scene with prefix [/A/B/C/D] and two observers,
    and a filter with the same prefix whose input handle is null. *)
Definition filter_XY : HdPrefixingSceneIndex Frame :=
  mkHdPrefixingSceneIndex (Some scene_XY) prefix_ABCD [1; 2].

Definition filter_null : HdPrefixingSceneIndex Frame :=
  mkHdPrefixingSceneIndex None prefix_ABCD [1; 2].

(** The query paths of the examples: [/A/B], [/X] and [/A/B/C/D/X]. *)
Definition path_AB : SdfPath := SdfPath_Absolute ["A"; "B"].
Definition path_X : SdfPath := SdfPath_Absolute ["X"].
Definition path_ABCDX : SdfPath := SdfPath_Absolute ["A"; "B"; "C"; "D"; "X"].

(** The leaf [/Foo/Bar] and the mesh container behind one and behind two
    proxies for the prefix [/A]. *)
Definition leaf_once : HdPathDataSource Frame :=
  Hd_PrefixingSceneIndexPathDataSource prefix_A (Some leaf_FooBar).
Definition leaf_twice : HdPathDataSource Frame :=
  Hd_PrefixingSceneIndexPathDataSource prefix_A (Some leaf_once).
Definition mesh_once : HdContainerDataSource Frame :=
  Hd_PrefixingSceneIndexContainerDataSource prefix_A (Some container_mesh).
Definition mesh_twice : HdContainerDataSource Frame :=
  Hd_PrefixingSceneIndexContainerDataSource prefix_A (Some mesh_once).

(** ** Data sources behind several proxies, and filters in a chain *)

Section Layers.

Context {Time : Type}.

(** A path data source handle behind one path proxy per prefix of the list,
    the first prefix outermost: what [Get] builds when containers are
    wrapped by several filters in a row. *)
Fixpoint path_layers (prefixes : list SdfPath)
    (base : HdPathDataSourceHandle Time) : HdPathDataSourceHandle Time :=
  match prefixes with
  | [] => base
  | prefix :: inner =>
      Some (Hd_PrefixingSceneIndexPathDataSource prefix (path_layers inner base))
  end.

(** A container handle behind one container proxy per prefix of the list,
    the first prefix outermost. *)
Fixpoint container_layers (prefixes : list SdfPath)
    (base : HdContainerDataSourceHandle Time) : HdContainerDataSourceHandle Time :=
  match prefixes with
  | [] => base
  | prefix :: inner =>
      Some (Hd_PrefixingSceneIndexContainerDataSource
              prefix (container_layers inner base))
  end.

(** The proxy that [Get] of the container proxy puts around a child: the
    three branches after a child has been found. *)
Definition wrapped_child (prefix : SdfPath) (childSource : HdDataSourceBase Time)
  : HdDataSourceBase Time :=
  match HdContainerDataSource_Cast childSource with
  | Some childContainer =>
      ContainerDataSource
        (Hd_PrefixingSceneIndexContainerDataSource prefix (Some childContainer))
  | None =>
      match HdPathDataSource_Cast childSource with
      | Some childPathDataSource =>
          PathDataSource
            (Hd_PrefixingSceneIndexPathDataSource
               prefix (Some childPathDataSource))
      | None => childSource
      end
  end.

(** A client's walk down a container along a list of names by repeated
    [Get]: the container itself for the empty list, nothing as soon as a
    name is missing or a data source on the way is not a container. *)
Fixpoint GetAt (container : HdContainerDataSource Time) (names : list TfToken)
  : HdDataSourceBaseHandle Time :=
  match names with
  | [] => Some (ContainerDataSource container)
  | name :: rest =>
      match Get container name with
      | None => None
      | Some child =>
          match rest with
          | [] => Some child
          | _ :: _ =>
              match HdContainerDataSource_Cast child with
              | Some childContainer => GetAt childContainer rest
              | None => None
              end
          end
      end
  end.

(** The filter used through its base class [HdSceneIndexBase], as the input
    scene of another filter.  A call that ends in a fault has no value to
    hand on; with a non-null input scene no call does. *)
Definition as_input (self : HdPrefixingSceneIndex Time) : HdSceneIndexBase Time :=
  mkHdSceneIndexBase
    (fun primPath =>
       match GetPrim self primPath with
       | Ok prim => prim
       | Fatal _ => mkHdSceneIndexPrim TfToken_empty None
       end)
    (fun primPath =>
       match GetChildPrimPaths self primPath with
       | Ok paths => paths
       | Fatal _ => []
       end).

End Layers.

(** ** The prim adapters *)

(** [TfToken::IsEmpty()]. *)
Definition TfToken_IsEmpty (token : TfToken) : bool :=
  bool_decide (token = TfToken_empty).

(** *** UsdImagingPointsAdapter (pointsAdapter.cpp): the imaging subprims *)

Module UsdImagingPointsAdapter.

Section Subprims.

Context {Time : Type}.

(** The token [HdPrimTypeTokens->points] (pxr/imaging/hd/tokens.h) and the
    classes [UsdPrim], [UsdImagingDataSourceStageGlobals] and
    [UsdImagingDataSourcePointsPrim] are declared outside the sources at
    hand; the three functions below only pass them on. *)
Variable HdPrimTypeTokens_points : TfToken.
Variables UsdPrim UsdImagingDataSourceStageGlobals : Type.
Variable UsdPrim_GetPath : UsdPrim -> SdfPath.
Variable UsdImagingDataSourcePointsPrim_New :
  SdfPath -> UsdPrim -> UsdImagingDataSourceStageGlobals ->
  HdContainerDataSource Time.

Definition GetImagingSubprims : list TfToken := [TfToken_empty].

Definition GetImagingSubprimType (subprim : TfToken) : TfToken :=
  if TfToken_IsEmpty subprim then HdPrimTypeTokens_points else TfToken_empty.

Definition GetImagingSubprimData (subprim : TfToken) (prim : UsdPrim)
    (stageGlobals : UsdImagingDataSourceStageGlobals)
  : HdContainerDataSourceHandle Time :=
  if TfToken_IsEmpty subprim then
    Some (UsdImagingDataSourcePointsPrim_New
            (UsdPrim_GetPath prim) prim stageGlobals)
  else None.

End Subprims.

End UsdImagingPointsAdapter.

(** *** UsdProcImagingGenerativeProceduralAdapter
    (generativeProceduralAdapter.cpp): population *)

Module UsdProcImagingGenerativeProceduralAdapter.

(** [TF_DEFINE_PRIVATE_TOKENS(_tokens, (inertGenerativeProcedural))]. *)
Definition _tokens_inertGenerativeProcedural : TfToken :=
  "inertGenerativeProcedural".

(** What the [VtValue] read from an attribute holds, as far as [Populate]
    asks: nothing (the default-constructed value), a [TfToken], or a value
    of another type. *)
Inductive AttributeValue : Type :=
| HoldsNothing
| HoldsTfToken (token : TfToken)
| HoldsOther.

(** [UsdAttribute]: [Get(&value)] stores the value the attribute has, if it
    has one, and leaves [value] alone otherwise. *)
Record UsdAttribute : Type := mkUsdAttribute {
  attribute_Get : option AttributeValue;
}.

(** [UsdPrim] as [Populate] reads it: its path and its [proceduralSystem]
    attribute, [None] for the invalid attribute handle. *)
Record UsdPrim : Type := mkUsdPrim {
  GetPath : SdfPath;
  GetProceduralSystemAttr : option UsdAttribute;
}.

(** The call [Populate] makes on the [UsdImagingIndexProxy]. *)
Inductive IndexCall : Type :=
| InsertRprim (primType : TfToken) (cachePath : SdfPath) (usdPrim : UsdPrim).

(** [Populate]: the path returned and the calls made on the index. *)
Definition Populate (prim : UsdPrim) : SdfPath * list IndexCall :=
  let rprimType := TfToken_empty in
  let procSysValue := HoldsNothing in
  let procSysValue :=
    match GetProceduralSystemAttr prim with
    | Some procSysAttr =>
        match attribute_Get procSysAttr with
        | Some value => value
        | None => procSysValue
        end
    | None => procSysValue
    end in
  let rprimType :=
    match procSysValue with
    | HoldsTfToken token => token
    | _ => rprimType
    end in
  let rprimType :=
    if TfToken_IsEmpty rprimType
    then _tokens_inertGenerativeProcedural
    else rprimType in
  (GetPath prim, [InsertRprim rprimType (GetPath prim) prim]).

End UsdProcImagingGenerativeProceduralAdapter.

(** ** Facts about the path algebra *)

Lemma path_with_elems_elems (p : SdfPath) :
  path_with_elems p (path_elems p) = p.
Proof. by destruct p. Qed.

Lemma path_elems_with_elems (p : SdfPath) (e : list TfToken) :
  IsEmpty p = false -> path_elems (path_with_elems p e) = e.
Proof. by destruct p. Qed.

(** [HasPrefix] holds exactly when the prefix is a real path and the path
    is the prefix followed by further tokens, with the same anchoring. *)
Lemma HasPrefix_true (p pre : SdfPath) :
  HasPrefix p pre = true <->
  IsEmpty pre = false /\
  exists rest, p = path_with_elems pre (path_elems pre ++ rest).
Proof.
  split.
  - destruct p as [|e|e], pre as [|k|k]; simpl; try discriminate;
      rewrite bool_decide_eq_true; intros [rest ->]; split; eauto.
  - intros [Hne [rest ->]].
    destruct pre as [|k|k]; simpl in *; try discriminate;
      apply bool_decide_eq_true; by exists rest.
Qed.

Lemma HasPrefix_refl (p : SdfPath) : IsEmpty p = false -> HasPrefix p p = true.
Proof.
  intros Hne. apply HasPrefix_true. split; [done|].
  exists []. by rewrite app_nil_r, path_with_elems_elems.
Qed.

(** Adding a prefix in front of an absolute path. *)
Lemma ReplacePrefix_root (e : list TfToken) (newPrefix : SdfPath) :
  ReplacePrefix (SdfPath_Absolute e) AbsoluteRootPath newPrefix
  = path_with_elems newPrefix (path_elems newPrefix ++ e).
Proof.
  unfold ReplacePrefix, AbsoluteRootPath. simpl. by rewrite drop_0.
Qed.

(** Taking a prefix off a path that has it. *)
Lemma ReplacePrefix_to_root (pre : SdfPath) (rest : list TfToken) :
  IsEmpty pre = false ->
  ReplacePrefix (path_with_elems pre (path_elems pre ++ rest)) pre AbsoluteRootPath
  = SdfPath_Absolute rest.
Proof.
  intros Hne. unfold ReplacePrefix.
  assert (HasPrefix (path_with_elems pre (path_elems pre ++ rest)) pre = true)
    as -> by (apply HasPrefix_true; eauto).
  rewrite path_elems_with_elems by done.
  by rewrite drop_app_length.
Qed.

(** A path that is not absolute is left alone when a prefix is added. *)
Lemma ReplacePrefix_root_not_absolute (p newPrefix : SdfPath) :
  IsAbsolutePath p = false -> ReplacePrefix p AbsoluteRootPath newPrefix = p.
Proof. by destruct p. Qed.

Lemma length_GetPrefixes (p : SdfPath) :
  length (GetPrefixes p) = GetPathElementCount p.
Proof. unfold GetPrefixes, GetPathElementCount. by rewrite length_fmap, length_seq. Qed.

Lemma GetPrefixes_lookup (p : SdfPath) (n : nat) :
  n < GetPathElementCount p ->
  GetPrefixes p !! n = Some (path_with_elems p (take (S n) (path_elems p))).
Proof.
  unfold GetPrefixes, GetPathElementCount. intros Hn.
  rewrite list_lookup_fmap, lookup_seq_lt by done. done.
Qed.

(** A strict ancestor has fewer tokens. *)
Lemma strict_ancestor_count (prefix q : SdfPath) :
  HasPrefix q prefix = false ->
  HasPrefix prefix q = true ->
  exists token rest,
    IsEmpty q = false /\
    prefix = path_with_elems q (path_elems q ++ token :: rest).
Proof.
  intros Hnot [Hne [rest ->]]%HasPrefix_true.
  destruct rest as [|token rest]; [|by eauto].
  rewrite app_nil_r, path_with_elems_elems in Hnot.
  by rewrite HasPrefix_refl in Hnot.
Qed.

Lemma path_with_elems_twice (p : SdfPath) (e e' : list TfToken) :
  path_with_elems (path_with_elems p e) e' = path_with_elems p e'.
Proof. by destruct p. Qed.

(** The entry of the ancestor chain of the prefix that a strict ancestor
    [q] selects: [q] followed by the next token of the prefix. *)
Lemma junction_lookup (prefix q : SdfPath) :
  HasPrefix q prefix = false ->
  HasPrefix prefix q = true ->
  exists token rest,
    IsEmpty q = false /\
    prefix = path_with_elems q (path_elems q ++ token :: rest) /\
    GetPrefixes prefix !! GetPathElementCount q
    = Some (path_with_elems q (path_elems q ++ [token])).
Proof.
  intros Hnot Hanc.
  destruct (strict_ancestor_count prefix q Hnot Hanc)
    as (token & rest & Hne & Hprefix).
  exists token, rest. split; [done|]. split; [done|].
  rewrite GetPrefixes_lookup.
  - rewrite Hprefix, path_with_elems_twice, path_elems_with_elems by done.
    unfold GetPathElementCount.
    assert (take (S (length (path_elems q))) (path_elems q ++ token :: rest)
            = path_elems q ++ [token]) as ->; [|done].
    change (token :: rest) with ([token] ++ rest).
    rewrite app_assoc.
    replace (S (length (path_elems q)))
      with (length (path_elems q ++ [token])) by (rewrite length_app; simpl; lia).
    apply take_app_length.
  - rewrite Hprefix. unfold GetPathElementCount.
    rewrite path_elems_with_elems, length_app by done. simpl. lia.
Qed.

(** A loop of [push_back]s over a batch builds the image of the batch. *)
Lemma foldl_push_back {A B : Type} (f : A -> B) (l : list A) (acc : list B) :
  foldl (fun acc x => acc ++ [f x]) acc l = acc ++ (f <$> l).
Proof.
  revert acc. induction l as [|x l IH]; intros acc; simpl.
  - by rewrite app_nil_r.
  - rewrite IH. by rewrite <- app_assoc.
Qed.

(** Re-rooting an absolute upstream path under the prefix. *)
Lemma reroot_absolute (prefix : SdfPath) (e : list TfToken) :
  AppendPath prefix (MakeRelativePath (SdfPath_Absolute e) AbsoluteRootPath)
  = path_with_elems prefix (path_elems prefix ++ e).
Proof. done. Qed.

Section Filter.

Context {Time : Type}.
Implicit Types (self : HdPrefixingSceneIndex Time) (p q : SdfPath).

Lemma remove_add_prefix self p :
  IsEmpty (_prefix self) = false ->
  IsAbsolutePath p = true ->
  _RemovePathPrefix self (_AddPathPrefix self p) = p.
Proof.
  intros Hne Habs. destruct p as [|e|e]; try discriminate.
  unfold _RemovePathPrefix, _AddPathPrefix.
  rewrite ReplacePrefix_root. by apply ReplacePrefix_to_root.
Qed.

Lemma add_remove_prefix self q :
  HasPrefix q (_prefix self) = true ->
  _AddPathPrefix self (_RemovePathPrefix self q) = q.
Proof.
  intros [Hne [rest ->]]%HasPrefix_true.
  unfold _RemovePathPrefix, _AddPathPrefix.
  rewrite ReplacePrefix_to_root by done. apply ReplacePrefix_root.
Qed.

(** The junction branch of [GetChildPrimPaths]. *)
Lemma GetChildPrimPaths_junction self q :
  HasPrefix q (_prefix self) = false ->
  HasPrefix (_prefix self) q = true ->
  exists token,
    GetPrefixes (_prefix self) !! GetPathElementCount q
    = Some (path_with_elems q (path_elems q ++ [token])) /\
    GetChildPrimPaths self q = Ok [path_with_elems q (path_elems q ++ [token])] /\
    HasPrefix (_prefix self) (path_with_elems q (path_elems q ++ [token])) = true.
Proof.
  intros Hnot Hanc.
  destruct (junction_lookup _ _ Hnot Hanc) as (token & rest & Hne & Hprefix & Hlook).
  exists token. split; [done|]. split.
  - unfold GetChildPrimPaths, index. by rewrite Hnot, Hanc, Hlook.
  - apply HasPrefix_true. split; [by destruct q|].
    exists rest. rewrite path_with_elems_twice, path_elems_with_elems by done.
    by rewrite <- app_assoc.
Qed.

(** For an absolute child of the input scene, re-rooting it under the
    prefix is adding the prefix to it. *)
Lemma reroot_AddPathPrefix self (e : list TfToken) :
  AppendPath (_prefix self)
    (MakeRelativePath (SdfPath_Absolute e) AbsoluteRootPath)
  = _AddPathPrefix self (SdfPath_Absolute e).
Proof.
  unfold _AddPathPrefix. by rewrite reroot_absolute, ReplacePrefix_root.
Qed.

(** No query reads the ancestor chain past its end, whatever the path. *)
Lemma GetChildPrimPaths_never_out_of_range self q :
  GetChildPrimPaths self q <> Fatal IndexOutOfRange.
Proof.
  destruct (HasPrefix q (_prefix self)) eqn:Hq.
  - unfold GetChildPrimPaths, _GetInputSceneIndex. rewrite Hq.
    by destruct (_inputSceneIndex self).
  - destruct (HasPrefix (_prefix self) q) eqn:Hanc.
    + destruct (GetChildPrimPaths_junction self q Hq Hanc) as (token & _ & -> & _).
      done.
    + unfold GetChildPrimPaths. by rewrite Hq, Hanc.
Qed.

(** With an input scene both queries have an answer for every path. *)
Lemma queries_total self input q :
  _inputSceneIndex self = Some input ->
  (exists prim, GetPrim self q = Ok prim) /\
  (exists paths, GetChildPrimPaths self q = Ok paths).
Proof.
  intros Hin. split.
  - unfold GetPrim, _GetInputSceneIndex. rewrite Hin.
    destruct (HasPrefix q (_prefix self)); simpl; [|by eauto].
    destruct (dataSource _); eauto.
  - destruct (HasPrefix q (_prefix self)) eqn:Hq.
    + unfold GetChildPrimPaths, _GetInputSceneIndex. rewrite Hq, Hin. simpl. eauto.
    + destruct (HasPrefix (_prefix self) q) eqn:Hanc.
      * destruct (GetChildPrimPaths_junction self q Hq Hanc) as (token & _ & -> & _).
        eauto.
      * unfold GetChildPrimPaths. rewrite Hq, Hanc. eauto.
Qed.

(** C4 (as amended): Prefix round trip.  For a filter whose prefix is a path (not the
    empty path): removing the prefix from an absolute upstream path [p] to
    which it was added gives [p] back, and adding the prefix to a virtual
    path [q] under the prefix from which it was removed gives [q] back. *)
Theorem prefix_round_trip self p q :
  IsEmpty (_prefix self) = false ->
  IsAbsolutePath p = true ->
  HasPrefix q (_prefix self) = true ->
  _RemovePathPrefix self (_AddPathPrefix self p) = p /\
  _AddPathPrefix self (_RemovePathPrefix self q) = q.
Proof.
  intros Hne Habs Hq. split.
  - by apply remove_add_prefix.
  - by apply add_remove_prefix.
Qed.

(** C10: In [GetChildPrimPaths] the junction branch is reached only when
    the query path [q] does not have the prefix as a prefix and the prefix
    has [q] as a prefix; then [q] is a strict ancestor of the prefix, its
    element count is below the number of entries of
    [prefix.GetPrefixes()], the indexed entry exists and the call returns
    it: the vector is never read past its end. *)
Theorem junction_index_in_bounds self q :
  HasPrefix q (_prefix self) = false ->
  HasPrefix (_prefix self) q = true ->
  GetPathElementCount q < GetPathElementCount (_prefix self) /\
  GetPathElementCount q < length (GetPrefixes (_prefix self)) /\
  exists next,
    GetPrefixes (_prefix self) !! GetPathElementCount q = Some next /\
    GetChildPrimPaths self q = Ok [next].
Proof.
  intros Hnot Hanc.
  destruct (GetChildPrimPaths_junction self q Hnot Hanc) as (token & Hlook & Hres & _).
  assert (GetPathElementCount q < length (GetPrefixes (_prefix self))) as Hlt
    by (eapply lookup_lt_Some; exact Hlook).
  split; [by rewrite <- (length_GetPrefixes (_prefix self))|]. split; [done|]. eauto.
Qed.

(** C1: For a query path [q] that does not have the prefix as a prefix,
    [GetChildPrimPaths q] is, when the prefix has [q] as a prefix (the
    absolute root included), the one-element list holding
    [prefix.GetPrefixes()[q.GetPathElementCount()]], which is [q] followed
    by one more token and still an ancestor of (or equal to) the prefix;
    otherwise it is the empty list.  The input scene is not consulted. *)
Theorem GetChildPrimPaths_outside_prefix self q :
  HasPrefix q (_prefix self) = false ->
  if HasPrefix (_prefix self) q
  then exists next token,
         GetPrefixes (_prefix self) !! GetPathElementCount q = Some next /\
         GetChildPrimPaths self q = Ok [next] /\
         next = path_with_elems q (path_elems q ++ [token]) /\
         HasPrefix (_prefix self) next = true
  else GetChildPrimPaths self q = Ok [].
Proof.
  intros Hnot. destruct (HasPrefix (_prefix self) q) eqn:Hanc.
  - destruct (GetChildPrimPaths_junction self q Hnot Hanc) as (token & Hlook & Hres & Hpre).
    eauto 10.
  - unfold GetChildPrimPaths. by rewrite Hnot, Hanc.
Qed.

(** C6: With an input scene, [GetPrim q] is the absent prim (empty type,
    null data source) when [q] does not have the prefix as a prefix;
    otherwise it is the input scene's prim at [q] with the prefix removed,
    with the same prim type and with its data source wrapped in the
    container proxy for the prefix when it is not null, and null when it is
    null. *)
Theorem GetPrim_spec self input q :
  _inputSceneIndex self = Some input ->
  GetPrim self q =
    if HasPrefix q (_prefix self)
    then
      let prim := input_GetPrim input (_RemovePathPrefix self q) in
      Ok {| primType := primType prim;
            dataSource :=
              (fun ds => Hd_PrefixingSceneIndexContainerDataSource
                           (_prefix self) (Some ds)) <$> dataSource prim |}
    else Ok {| primType := TfToken_empty; dataSource := None |}.
Proof.
  intros Hin. unfold GetPrim, _GetInputSceneIndex. rewrite Hin.
  destruct (HasPrefix q (_prefix self)); simpl; [|done].
  destruct (input_GetPrim input (_RemovePathPrefix self q)) as [ty [ds|]]; done.
Qed.

(** C7: With an input scene, for a query path [q] that has the prefix as a
    prefix, [GetChildPrimPaths q] is the input scene's child list at [q]
    with the prefix removed, each child [c] replaced by
    [prefix.AppendPath(c.MakeRelativePath(root))], in the same order: the
    lists have the same length and correspond entry by entry. *)
Theorem GetChildPrimPaths_under_prefix self input q :
  _inputSceneIndex self = Some input ->
  HasPrefix q (_prefix self) = true ->
  let upstream := input_GetChildPrimPaths input (_RemovePathPrefix self q) in
  let reroot c :=
    AppendPath (_prefix self) (MakeRelativePath c AbsoluteRootPath) in
  exists children,
    GetChildPrimPaths self q = Ok children /\
    children = reroot <$> upstream /\
    length children = length upstream /\
    forall i, children !! i = reroot <$> upstream !! i.
Proof.
  intros Hin Hq upstream reroot. exists (reroot <$> upstream).
  split; [|split; [done|split]].
  - unfold GetChildPrimPaths, _GetInputSceneIndex. by rewrite Hq, Hin.
  - apply length_fmap.
  - intros i. apply list_lookup_fmap.
Qed.

(** C5 (as amended): With a null input scene handle, a query for a path
    [q] that does not have the prefix as a prefix still has its answer:
    [GetPrim] gives the absent prim and [GetChildPrimPaths] gives the
    junction entry or the empty list.  A query for a path that has the
    prefix as a prefix calls the input scene through the null handle and
    has no answer. *)
Theorem null_input_queries self q :
  _inputSceneIndex self = None ->
  if HasPrefix q (_prefix self)
  then GetPrim self q = Fatal NullDereference /\
       GetChildPrimPaths self q = Fatal NullDereference
  else GetPrim self q = Ok {| primType := TfToken_empty; dataSource := None |} /\
       if HasPrefix (_prefix self) q
       then exists next,
              GetPrefixes (_prefix self) !! GetPathElementCount q = Some next /\
              GetChildPrimPaths self q = Ok [next]
       else GetChildPrimPaths self q = Ok [].
Proof.
  intros Hin. destruct (HasPrefix q (_prefix self)) eqn:Hq.
  - unfold GetPrim, GetChildPrimPaths, _GetInputSceneIndex.
    by rewrite Hq, Hin.
  - split; [unfold GetPrim; by rewrite Hq|].
    destruct (HasPrefix (_prefix self) q) eqn:Hanc.
    + destruct (GetChildPrimPaths_junction self q Hq Hanc) as (token & Hlook & Hres & _).
      eauto.
    + unfold GetChildPrimPaths. by rewrite Hq, Hanc.
Qed.

(** C3: Each of the three handlers sends its observers one batch: the
    same batch to every registered observer, of the length of the
    incoming batch, whose i-th entry is the i-th incoming entry with its
    path replaced by [ReplacePrefix] of the absolute root by the prefix and
    with its prim type or dirty locator set unchanged. *)
Theorem notifications_translated self
    (added : list AddedPrimEntry) (removed : list RemovedPrimEntry)
    (dirtied : list DirtiedPrimEntry) :
  (exists batch,
     _PrimsAdded self added
     = (fun observer => (observer, PrimsAdded batch)) <$> _observers self /\
     length batch = length added /\
     forall i,
       batch !! i
       = (fun entry =>
            mkAddedPrimEntry
              (ReplacePrefix (added_primPath entry) AbsoluteRootPath (_prefix self))
              (added_primType entry)) <$> added !! i) /\
  (exists batch,
     _PrimsRemoved self removed
     = (fun observer => (observer, PrimsRemoved batch)) <$> _observers self /\
     length batch = length removed /\
     forall i,
       batch !! i
       = (fun entry =>
            mkRemovedPrimEntry
              (ReplacePrefix (removed_primPath entry) AbsoluteRootPath (_prefix self)))
           <$> removed !! i) /\
  (exists batch,
     _PrimsDirtied self dirtied
     = (fun observer => (observer, PrimsDirtied batch)) <$> _observers self /\
     length batch = length dirtied /\
     forall i,
       batch !! i
       = (fun entry =>
            mkDirtiedPrimEntry
              (ReplacePrefix (dirtied_primPath entry) AbsoluteRootPath (_prefix self))
              (dirtied_dirtyLocators entry)) <$> dirtied !! i).
Proof.
  unfold _PrimsAdded, _PrimsRemoved, _PrimsDirtied,
    _SendPrimsAdded, _SendPrimsRemoved, _SendPrimsDirtied, _AddPathPrefix.
  split; [|split]; eexists; (split; [reflexivity|]);
    rewrite foldl_push_back; simpl;
    (split; [apply length_fmap | intros i; apply list_lookup_fmap]).
Qed.

End Filter.

Section Proxies.

Context {Time : Type}.

(** The dispatch of [Get] on the kind of the child. *)
Lemma Get_proxy (prefix : SdfPath) (wrapped : HdContainerDataSource Time)
    (name : TfToken) :
  Get (Hd_PrefixingSceneIndexContainerDataSource prefix (Some wrapped)) name
  = match Get wrapped name with
    | None => None
    | Some (ContainerDataSource child) =>
        Some (ContainerDataSource
                (Hd_PrefixingSceneIndexContainerDataSource prefix (Some child)))
    | Some (PathDataSource child) =>
        Some (PathDataSource
                (Hd_PrefixingSceneIndexPathDataSource prefix (Some child)))
    | Some (OtherDataSource object) => Some (OtherDataSource object)
    end.
Proof. simpl. by destruct (Get wrapped name) as [[child|child|object]|]. Qed.

(** The rewrite of the value of a wrapped path leaf. *)
Lemma GetTypedValue_proxy (prefix : SdfPath) (wrapped : HdPathDataSource Time)
    (t : Time) :
  GetTypedValue (Hd_PrefixingSceneIndexPathDataSource prefix (Some wrapped)) t
  = match GetTypedValue wrapped t with
    | SdfPath_Absolute e => path_with_elems prefix (path_elems prefix ++ e)
    | inner => inner
    end.
Proof.
  simpl. by destruct (GetTypedValue wrapped t) as [|e|e]; simpl;
    rewrite ?ReplacePrefix_root.
Qed.

(** C8: [GetTypedValue] of the path proxy is the empty path when the
    wrapped handle is null; otherwise, with [inner] the wrapped value at the
    same time, it is [inner.ReplacePrefix(root, prefix)] when [inner] is
    absolute, which is the prefix followed by the tokens of [inner], and
    [inner] itself when it is not absolute.  [GetValue] is the typed value
    in the value envelope. *)
Theorem path_proxy_value (prefix : SdfPath)
    (input : HdPathDataSourceHandle Time) (t : Time) :
  let proxy := Hd_PrefixingSceneIndexPathDataSource prefix input in
  GetTypedValue proxy t
  = match input with
    | None => SdfPath_Empty
    | Some wrapped =>
        let inner := GetTypedValue wrapped t in
        if IsAbsolutePath inner
        then ReplacePrefix inner AbsoluteRootPath prefix
        else inner
    end /\
  GetTypedValue proxy t
  = match input with
    | None => SdfPath_Empty
    | Some wrapped =>
        match GetTypedValue wrapped t with
        | SdfPath_Absolute e => path_with_elems prefix (path_elems prefix ++ e)
        | inner => inner
        end
    end /\
  GetValue proxy t = VtValue_SdfPath (GetTypedValue proxy t).
Proof.
  simpl. split; [done|]. split; [|done].
  destruct input as [wrapped|]; [|done].
  apply GetTypedValue_proxy.
Qed.

(** C9: [Get] of the container proxy returns nothing when the wrapped
    handle is null or the wrapped container has no child of that name; a
    container proxy with the same prefix around a child that is a
    container; a path proxy with the same prefix around a child that is a
    path data source; and any other child as it is. *)
Theorem container_proxy_Get (prefix : SdfPath)
    (input : HdContainerDataSourceHandle Time) (name : TfToken) :
  Get (Hd_PrefixingSceneIndexContainerDataSource prefix input) name
  = match input with
    | None => None
    | Some wrapped =>
        match Get wrapped name with
        | None => None
        | Some (ContainerDataSource child) =>
            Some (ContainerDataSource
                    (Hd_PrefixingSceneIndexContainerDataSource prefix (Some child)))
        | Some (PathDataSource child) =>
            Some (PathDataSource
                    (Hd_PrefixingSceneIndexPathDataSource prefix (Some child)))
        | Some (OtherDataSource object) => Some (OtherDataSource object)
        end
    end.
Proof.
  destruct input as [wrapped|]; [|done].
  apply Get_proxy.
Qed.

(** C2 (as amended): Wrapping a wrapped container once more with the same
    prefix leaves [Has] and [GetNames] as they are, and [Get] returns
    nothing for the same names and the same object for a child that is
    neither a container nor a path data source; a container or path child
    comes back with one more proxy around it.  Wrapping a wrapped path leaf
    once more adds the prefix once more: the value of the doubly wrapped
    leaf is the value of the singly wrapped leaf with the prefix in front of
    it when that value is absolute, and that value itself when it is not. *)
Theorem rewrap_same_prefix (prefix : SdfPath)
    (input : HdContainerDataSourceHandle Time)
    (leafInput : HdPathDataSourceHandle Time)
    (name : TfToken) (t : Time) :
  let once := Hd_PrefixingSceneIndexContainerDataSource prefix input in
  let twice := Hd_PrefixingSceneIndexContainerDataSource prefix (Some once) in
  let leafOnce := Hd_PrefixingSceneIndexPathDataSource prefix leafInput in
  let leafTwice := Hd_PrefixingSceneIndexPathDataSource prefix (Some leafOnce) in
  Has twice name = Has once name /\
  GetNames twice = GetNames once /\
  Get twice name
  = match Get once name with
    | None => None
    | Some (ContainerDataSource child) =>
        Some (ContainerDataSource
                (Hd_PrefixingSceneIndexContainerDataSource prefix (Some child)))
    | Some (PathDataSource child) =>
        Some (PathDataSource
                (Hd_PrefixingSceneIndexPathDataSource prefix (Some child)))
    | Some (OtherDataSource object) => Some (OtherDataSource object)
    end /\
  GetTypedValue leafTwice t
  = match GetTypedValue leafOnce t with
    | SdfPath_Absolute e => path_with_elems prefix (path_elems prefix ++ e)
    | value => value
    end.
Proof.
  intros once twice leafOnce leafTwice.
  split; [done|]. split; [done|]. split.
  - apply Get_proxy.
  - apply GetTypedValue_proxy.
Qed.

End Proxies.

(** ** The claims at the example scene *)

Lemma GetChildPrimPaths_outside_prefix_witness :
  HasPrefix path_AB (_prefix filter_XY) = false /\
  exists next token,
    GetPrefixes (_prefix filter_XY) !! GetPathElementCount path_AB = Some next /\
    GetChildPrimPaths filter_XY path_AB = Ok [next] /\
    next = path_with_elems path_AB (path_elems path_AB ++ [token]) /\
    HasPrefix (_prefix filter_XY) next = true.
Proof.
  split; [reflexivity|].
  exact (GetChildPrimPaths_outside_prefix filter_XY path_AB eq_refl).
Defined.

Lemma prefix_round_trip_witness :
  IsEmpty (_prefix filter_XY) = false /\
  IsAbsolutePath path_X = true /\
  HasPrefix path_ABCDX (_prefix filter_XY) = true /\
  _RemovePathPrefix filter_XY (_AddPathPrefix filter_XY path_X) = path_X /\
  _AddPathPrefix filter_XY (_RemovePathPrefix filter_XY path_ABCDX) = path_ABCDX.
Proof.
  split; [reflexivity|]. split; [reflexivity|]. split; [reflexivity|].
  exact (prefix_round_trip filter_XY path_X path_ABCDX eq_refl eq_refl eq_refl).
Defined.

Lemma null_input_queries_witness :
  _inputSceneIndex filter_null = None /\
  GetPrim filter_null AbsoluteRootPath
  = Ok {| primType := TfToken_empty; dataSource := None |} /\
  exists next,
    GetPrefixes (_prefix filter_null) !! GetPathElementCount AbsoluteRootPath
    = Some next /\
    GetChildPrimPaths filter_null AbsoluteRootPath = Ok [next].
Proof.
  split; [reflexivity|].
  exact (null_input_queries filter_null AbsoluteRootPath eq_refl).
Defined.

Lemma GetPrim_spec_witness :
  _inputSceneIndex filter_XY = Some scene_XY /\
  GetPrim filter_XY path_ABCDX
  = Ok {| primType := "mesh";
          dataSource :=
            Some (Hd_PrefixingSceneIndexContainerDataSource
                    prefix_ABCD (Some container_mesh)) |}.
Proof.
  split; [reflexivity|].
  exact (GetPrim_spec filter_XY scene_XY path_ABCDX eq_refl).
Defined.

Lemma GetChildPrimPaths_under_prefix_witness :
  _inputSceneIndex filter_XY = Some scene_XY /\
  HasPrefix prefix_ABCD (_prefix filter_XY) = true /\
  exists children,
    GetChildPrimPaths filter_XY prefix_ABCD = Ok children /\
    children = [SdfPath_Absolute ["A"; "B"; "C"; "D"; "X"];
                SdfPath_Absolute ["A"; "B"; "C"; "D"; "Y"]] /\
    length children = 2 /\
    forall i,
      children !! i
      = (fun c => AppendPath prefix_ABCD (MakeRelativePath c AbsoluteRootPath))
          <$> [SdfPath_Absolute ["X"]; SdfPath_Absolute ["Y"]] !! i.
Proof.
  split; [reflexivity|]. split; [reflexivity|].
  exact (GetChildPrimPaths_under_prefix filter_XY scene_XY prefix_ABCD
           eq_refl eq_refl).
Defined.

Lemma junction_index_in_bounds_witness :
  HasPrefix path_AB (_prefix filter_XY) = false /\
  HasPrefix (_prefix filter_XY) path_AB = true /\
  GetPathElementCount path_AB < GetPathElementCount (_prefix filter_XY) /\
  GetPathElementCount path_AB < length (GetPrefixes (_prefix filter_XY)) /\
  exists next,
    GetPrefixes (_prefix filter_XY) !! GetPathElementCount path_AB = Some next /\
    GetChildPrimPaths filter_XY path_AB = Ok [next].
Proof.
  split; [reflexivity|]. split; [reflexivity|].
  exact (junction_index_in_bounds filter_XY path_AB eq_refl eq_refl).
Defined.

(** C2 fails as stated: under the prefix [/A] the leaf [/Foo/Bar] reads
    [/A/Foo/Bar] through one proxy and [/A/A/Foo/Bar] through two, also when
    the leaf is reached by [Get] through a container wrapped once and
    twice. *)
Lemma rewrap_prefixes_twice :
  GetTypedValue leaf_once 0 = SdfPath_Absolute ["A"; "Foo"; "Bar"] /\
  GetTypedValue leaf_twice 0 = SdfPath_Absolute ["A"; "A"; "Foo"; "Bar"] /\
  GetTypedValue leaf_twice 0 <> GetTypedValue leaf_once 0 /\
  Get mesh_once "target" = Some (PathDataSource leaf_once) /\
  Get mesh_twice "target" = Some (PathDataSource leaf_twice) /\
  Get mesh_twice "target" <> Get mesh_once "target".
Proof.
  repeat split; try reflexivity; vm_compute; discriminate.
Qed.

(** C5 fails as stated: with a null input handle a query for a path under
    the prefix has no answer, neither from [GetPrim] nor from
    [GetChildPrimPaths]. *)
Lemma null_input_query_fails :
  _inputSceneIndex filter_null = None /\
  HasPrefix prefix_ABCD (_prefix filter_null) = true /\
  GetPrim filter_null prefix_ABCD = Fatal NullDereference /\
  GetChildPrimPaths filter_null prefix_ABCD = Fatal NullDereference /\
  ~ (exists prim, GetPrim filter_null prefix_ABCD = Ok prim) /\
  ~ (exists paths, GetChildPrimPaths filter_null prefix_ABCD = Ok paths).
Proof.
  repeat split; try reflexivity; intros [x Hx]; vm_compute in Hx; discriminate.
Qed.

(** ** The examples of the spec *)

(** Junction synthesis. *)
Example junction_synthesis :
  GetChildPrimPaths filter_XY AbsoluteRootPath = Ok [SdfPath_Absolute ["A"]] /\
  GetChildPrimPaths filter_XY (SdfPath_Absolute ["A"; "B"])
  = Ok [SdfPath_Absolute ["A"; "B"; "C"]] /\
  GetPrim filter_XY (SdfPath_Absolute ["A"])
  = Ok {| primType := TfToken_empty; dataSource := None |}.
Proof. repeat split; reflexivity. Qed.

(** Domain containment. *)
Example domain_containment :
  GetPrim filter_XY (SdfPath_Absolute ["A"; "Z"])
  = Ok {| primType := TfToken_empty; dataSource := None |} /\
  GetChildPrimPaths filter_XY (SdfPath_Absolute ["A"; "Z"]) = Ok [] /\
  GetChildPrimPaths filter_XY (SdfPath_Absolute ["AB"; "C"]) = Ok [].
Proof. repeat split; reflexivity. Qed.

(** Delegation at the boundary. *)
Example delegation_at_the_boundary :
  GetChildPrimPaths filter_XY prefix_ABCD
  = Ok [SdfPath_Absolute ["A"; "B"; "C"; "D"; "X"];
        SdfPath_Absolute ["A"; "B"; "C"; "D"; "Y"]].
Proof. reflexivity. Qed.

(** Leaf rewrite. *)
Example leaf_rewrite :
  GetTypedValue
    (Hd_PrefixingSceneIndexPathDataSource prefix_ABCD (Some leaf_FooBar)) 0
  = SdfPath_Absolute ["A"; "B"; "C"; "D"; "Foo"; "Bar"] /\
  GetTypedValue
    (Hd_PrefixingSceneIndexPathDataSource prefix_ABCD (Some leaf_rel_FooBar)) 0
  = SdfPath_Relative ["Foo"; "Bar"] /\
  GetTypedValue
    (Hd_PrefixingSceneIndexPathDataSource (Time := Frame) prefix_ABCD None) 0
  = SdfPath_Empty.
Proof. repeat split; reflexivity. Qed.

(** Children of a wrapped container. *)
Example wrapped_children :
  GetNames mesh_once = ["primvars"; "target"; "points"] /\
  Get mesh_once "primvars"
  = Some (ContainerDataSource
            (Hd_PrefixingSceneIndexContainerDataSource
               prefix_A (Some container_inner))) /\
  Get mesh_once "points" = Some (OtherDataSource 7) /\
  Get mesh_once "missing" = None.
Proof. repeat split; reflexivity. Qed.

(** Notification order preservation. *)
Example notification_order :
  _PrimsAdded filter_XY
    [mkAddedPrimEntry (SdfPath_Absolute ["X"]) "mesh";
     mkAddedPrimEntry (SdfPath_Absolute ["Y"]) "scope"]
  = let batch :=
      PrimsAdded
        [mkAddedPrimEntry (SdfPath_Absolute ["A"; "B"; "C"; "D"; "X"]) "mesh";
         mkAddedPrimEntry (SdfPath_Absolute ["A"; "B"; "C"; "D"; "Y"]) "scope"] in
    [(1, batch); (2, batch)].
Proof. reflexivity. Qed.

(** ** Proxies behind proxies *)

Section ProxyLayers.

Context {Time : Type}.



(** The sample times asked through any number of path proxies are those of
    the leaf at the bottom, with the same interval and the same
    out-parameter; with a null handle at the bottom the answer is [false]
    and the out-parameter is left as it was. *)
Theorem sample_times_through_layers (Q : SdfPath) (prefixes : list SdfPath)
    (base : HdPathDataSourceHandle Time) (startTime endTime : Time)
    (outSampleTimes : list Time) :
  GetContributingSampleTimesForInterval
    (Hd_PrefixingSceneIndexPathDataSource Q (path_layers prefixes base))
    startTime endTime outSampleTimes
  = match base with
    | Some leaf =>
        GetContributingSampleTimesForInterval
          leaf startTime endTime outSampleTimes
    | None => (false, outSampleTimes)
    end.
Proof.
  revert Q. induction prefixes as [|P prefixes IH]; intros Q.
  - by destruct base.
  - cbn [path_layers]. rewrite <- (IH P). done.
Qed.

(** A rewritten value lies under the prefix, and taking the prefix off it
    gives the value of the wrapped leaf back. *)
Theorem path_proxy_value_strips_back (prefix : SdfPath)
    (wrapped : HdPathDataSource Time) (t : Time) :
  IsEmpty prefix = false ->
  IsAbsolutePath (GetTypedValue wrapped t) = true ->
  HasPrefix
    (GetTypedValue (Hd_PrefixingSceneIndexPathDataSource prefix (Some wrapped)) t)
    prefix = true /\
  ReplacePrefix
    (GetTypedValue (Hd_PrefixingSceneIndexPathDataSource prefix (Some wrapped)) t)
    prefix AbsoluteRootPath
  = GetTypedValue wrapped t.
Proof.
  intros Hne Habs. rewrite GetTypedValue_proxy.
  destruct (GetTypedValue wrapped t) as [|e|e]; try discriminate.
  split.
  - apply HasPrefix_true. eauto.
  - by apply ReplacePrefix_to_root.
Qed.

(** A path proxy for the root prefix reads exactly like the leaf it wraps:
    same value at every time, same sample times. *)
Theorem path_proxy_root_prefix (wrapped : HdPathDataSource Time)
    (t startTime endTime : Time) (outSampleTimes : list Time) :
  GetTypedValue
    (Hd_PrefixingSceneIndexPathDataSource AbsoluteRootPath (Some wrapped)) t
  = GetTypedValue wrapped t /\
  GetContributingSampleTimesForInterval
    (Hd_PrefixingSceneIndexPathDataSource AbsoluteRootPath (Some wrapped))
    startTime endTime outSampleTimes
  = GetContributingSampleTimesForInterval
      wrapped startTime endTime outSampleTimes.
Proof.
  split; [|done]. rewrite GetTypedValue_proxy.
  by destruct (GetTypedValue wrapped t).
Qed.

(** [Get] of a container proxy is the child of the wrapped container with
    its proxy around it. *)
Lemma Get_wrapped_child (prefix : SdfPath) (wrapped : HdContainerDataSource Time)
    (name : TfToken) :
  Get (Hd_PrefixingSceneIndexContainerDataSource prefix (Some wrapped)) name
  = wrapped_child prefix <$> Get wrapped name.
Proof. simpl. by destruct (Get wrapped name) as [[child|child|object]|]. Qed.

(** A container whose [Has] and whose list of names both agree with its
    [Get] keeps that behind a proxy: wrapping neither hides a child that is
    reported or listed, nor reports or lists one that [Get] does not
    return. *)
Theorem container_proxy_keeps_agreement (prefix : SdfPath)
    (wrapped : HdContainerDataSource Time) :
  (forall name,
     (Has wrapped name = true <-> is_Some (Get wrapped name)) /\
     (name ∈ GetNames wrapped <-> is_Some (Get wrapped name))) ->
  forall name,
    (Has (Hd_PrefixingSceneIndexContainerDataSource prefix (Some wrapped)) name
     = true
     <-> is_Some
           (Get (Hd_PrefixingSceneIndexContainerDataSource prefix (Some wrapped))
              name)) /\
    (name ∈ GetNames
              (Hd_PrefixingSceneIndexContainerDataSource prefix (Some wrapped))
     <-> is_Some
           (Get (Hd_PrefixingSceneIndexContainerDataSource prefix (Some wrapped))
              name)).
Proof.
  intros Hagree name.
  rewrite Get_wrapped_child, fmap_is_Some. simpl. by apply Hagree.
Qed.

(** The walk along a list of names commutes with wrapping. *)
Lemma GetAt_proxy (prefix : SdfPath) (wrapped : HdContainerDataSource Time)
    (names : list TfToken) :
  GetAt (Hd_PrefixingSceneIndexContainerDataSource prefix (Some wrapped)) names
  = wrapped_child prefix <$> GetAt wrapped names.
Proof.
  revert wrapped. induction names as [|name rest IH]; intros wrapped; [done|].
  cbn [GetAt]. rewrite Get_wrapped_child.
  destruct (Get wrapped name) as [child|]; [|done]. cbn [fmap option_fmap option_map].
  destruct rest as [|next rest]; [done|].
  destruct child as [childContainer|childPath|object]; [|done|done].
  apply IH.
Qed.

(** Walking down a wrapped container along any list of names reaches what
    the same walk reaches in the wrapped container, with its proxy around
    it: a container or a path leaf at any depth is wrapped, any other data
    source is the same object, and the walk fails in the one exactly when it
    fails in the other. *)
Theorem GetAt_wrapped (prefix : SdfPath) (wrapped : HdContainerDataSource Time)
    (names : list TfToken) :
  GetAt (Hd_PrefixingSceneIndexContainerDataSource prefix (Some wrapped)) names
  = wrapped_child prefix <$> GetAt wrapped names.
Proof. apply GetAt_proxy. Qed.

(** A path leaf found at any depth of a container is found at the same
    place of the wrapped container, behind a path proxy: its absolute
    values come with the prefix in front, its other values as they are. *)
Theorem deep_path_leaf_rewritten (prefix : SdfPath)
    (wrapped : HdContainerDataSource Time) (names : list TfToken)
    (leaf : HdPathDataSource Time) :
  GetAt wrapped names = Some (PathDataSource leaf) ->
  exists leaf',
    GetAt (Hd_PrefixingSceneIndexContainerDataSource prefix (Some wrapped)) names
    = Some (PathDataSource leaf') /\
    forall t,
      GetTypedValue leaf' t
      = match GetTypedValue leaf t with
        | SdfPath_Absolute e => path_with_elems prefix (path_elems prefix ++ e)
        | value => value
        end.
Proof.
  intros Hleaf.
  exists (Hd_PrefixingSceneIndexPathDataSource prefix (Some leaf)). split.
  - by rewrite GetAt_proxy, Hleaf.
  - intros t. apply GetTypedValue_proxy.
Qed.

End ProxyLayers.

(** ** The virtual namespace *)

Section Namespace.

Context {Time : Type}.
Implicit Types (self : HdPrefixingSceneIndex Time) (p q : SdfPath).

Lemma HasPrefix_AddPathPrefix self p :
  IsEmpty (_prefix self) = false ->
  IsAbsolutePath p = true ->
  HasPrefix (_AddPathPrefix self p) (_prefix self) = true.
Proof.
  intros Hne Habs. destruct p as [|e|e]; try discriminate.
  unfold _AddPathPrefix. rewrite ReplacePrefix_root.
  apply HasPrefix_true. eauto.
Qed.

(** [GetPrim] under the prefix, with an input scene. *)
Lemma GetPrim_delegated self (input : HdSceneIndexBase Time) q :
  _inputSceneIndex self = Some input ->
  HasPrefix q (_prefix self) = true ->
  GetPrim self q
  = Ok {| primType := primType (input_GetPrim input (_RemovePathPrefix self q));
          dataSource :=
            (fun ds => Hd_PrefixingSceneIndexContainerDataSource
                         (_prefix self) (Some ds))
              <$> dataSource (input_GetPrim input (_RemovePathPrefix self q)) |}.
Proof.
  intros Hin Hq. unfold GetPrim, _GetInputSceneIndex. rewrite Hq, Hin. simpl.
  by destruct (input_GetPrim input (_RemovePathPrefix self q)) as [ty [ds|]].
Qed.

(** [GetChildPrimPaths] under the prefix, with an input scene. *)
Lemma GetChildPrimPaths_delegated self (input : HdSceneIndexBase Time) q :
  _inputSceneIndex self = Some input ->
  HasPrefix q (_prefix self) = true ->
  GetChildPrimPaths self q
  = Ok ((fun c => AppendPath (_prefix self) (MakeRelativePath c AbsoluteRootPath))
          <$> input_GetChildPrimPaths input (_RemovePathPrefix self q)).
Proof.
  intros Hin Hq. unfold GetChildPrimPaths, _GetInputSceneIndex. by rewrite Hq, Hin.
Qed.

(** Every prim of the input scene is found at its path with the prefix
    added: the filter's prim there has the input prim's type and the input
    prim's data source behind a container proxy (or no data source when the
    input prim has none). *)
Theorem GetPrim_at_prefixed_path self (input : HdSceneIndexBase Time) p :
  _inputSceneIndex self = Some input ->
  IsEmpty (_prefix self) = false ->
  IsAbsolutePath p = true ->
  GetPrim self (_AddPathPrefix self p)
  = Ok {| primType := primType (input_GetPrim input p);
          dataSource :=
            (fun ds => Hd_PrefixingSceneIndexContainerDataSource
                         (_prefix self) (Some ds))
              <$> dataSource (input_GetPrim input p) |}.
Proof.
  intros Hin Hne Habs.
  rewrite (GetPrim_delegated self input) by auto using HasPrefix_AddPathPrefix.
  by rewrite remove_add_prefix.
Qed.

(** Adding the prefix never maps two absolute input paths to one path. *)
Theorem AddPathPrefix_injective self p q :
  IsEmpty (_prefix self) = false ->
  IsAbsolutePath p = true ->
  IsAbsolutePath q = true ->
  _AddPathPrefix self p = _AddPathPrefix self q ->
  p = q.
Proof.
  intros Hne Hp Hq Heq.
  rewrite <- (remove_add_prefix self p), <- (remove_add_prefix self q) by done.
  by rewrite Heq.
Qed.

(** When the input scene lists absolute children, the children the filter
    lists for a path under the prefix are those children with the prefix
    added: each lies under the prefix, taking the prefix off the list gives
    the input list back, and [GetPrim] at the i-th child is the input prim
    at the i-th input child, wrapped. *)
Theorem children_under_prefix_resolve self (input : HdSceneIndexBase Time) q :
  _inputSceneIndex self = Some input ->
  IsEmpty (_prefix self) = false ->
  HasPrefix q (_prefix self) = true ->
  Forall (fun c => IsAbsolutePath c = true)
    (input_GetChildPrimPaths input (_RemovePathPrefix self q)) ->
  exists children,
    GetChildPrimPaths self q = Ok children /\
    children
    = _AddPathPrefix self
        <$> input_GetChildPrimPaths input (_RemovePathPrefix self q) /\
    Forall (fun c => HasPrefix c (_prefix self) = true) children /\
    _RemovePathPrefix self <$> children
    = input_GetChildPrimPaths input (_RemovePathPrefix self q) /\
    forall i c,
      input_GetChildPrimPaths input (_RemovePathPrefix self q) !! i = Some c ->
      children !! i = Some (_AddPathPrefix self c) /\
      GetPrim self (_AddPathPrefix self c)
      = Ok {| primType := primType (input_GetPrim input c);
              dataSource :=
                (fun ds => Hd_PrefixingSceneIndexContainerDataSource
                             (_prefix self) (Some ds))
                  <$> dataSource (input_GetPrim input c) |}.
Proof.
  intros Hin Hne Hq Habs.
  set (upstream := input_GetChildPrimPaths input (_RemovePathPrefix self q)) in *.
  exists (_AddPathPrefix self <$> upstream).
  split; [|split; [done|split; [|split]]].
  - rewrite (GetChildPrimPaths_delegated self input) by done. f_equal.
    apply Forall_fmap_ext. eapply Forall_impl; [exact Habs|].
    intros [|e|e] Hc; try discriminate. apply reroot_AddPathPrefix.
  - apply Forall_fmap. eapply Forall_impl; [exact Habs|].
    intros c Hc. by apply HasPrefix_AddPathPrefix.
  - rewrite <- list_fmap_compose. rewrite <- (list_fmap_id upstream) at 2.
    apply Forall_fmap_ext. eapply Forall_impl; [exact Habs|].
    intros c Hc. by apply remove_add_prefix.
  - intros i c Hi. split.
    + by rewrite list_lookup_fmap, Hi.
    + assert (IsAbsolutePath c = true) as Hc
        by (eapply Forall_lookup_1 in Habs; eauto).
      rewrite (GetPrim_delegated self input) by auto using HasPrefix_AddPathPrefix.
      by rewrite remove_add_prefix.
Qed.

(** The junctions lead from the root to the prefix: for an absolute prefix
    of n tokens and every k below n, the path made of the first k tokens
    has no prim and has exactly one child, the path made of the first k+1
    tokens.  The input scene plays no part. *)
Theorem junction_chain self (e : list TfToken) (k : nat) :
  _prefix self = SdfPath_Absolute e ->
  k < length e ->
  GetPrim self (SdfPath_Absolute (take k e))
  = Ok {| primType := TfToken_empty; dataSource := None |} /\
  GetChildPrimPaths self (SdfPath_Absolute (take k e))
  = Ok [SdfPath_Absolute (take (S k) e)].
Proof.
  intros Hprefix Hk.
  assert (HasPrefix (SdfPath_Absolute (take k e)) (_prefix self) = false) as Hnot.
  { rewrite Hprefix. simpl. apply bool_decide_eq_false.
    intros Hpre%prefix_length. rewrite length_take in Hpre. lia. }
  assert (HasPrefix (_prefix self) (SdfPath_Absolute (take k e)) = true) as Hanc.
  { rewrite Hprefix. simpl. apply bool_decide_eq_true, prefix_take. }
  split.
  - unfold GetPrim. by rewrite Hnot.
  - unfold GetChildPrimPaths, index. rewrite Hnot, Hanc, Hprefix.
    rewrite GetPrefixes_lookup.
    + unfold GetPathElementCount. simpl. rewrite length_take.
      by replace (k `min` length e) with k by lia.
    + unfold GetPathElementCount. simpl. rewrite length_take. lia.
Qed.

End Namespace.

(** ** Notifications and queries agree *)

Section Announced.

Context {Time : Type}.
Implicit Types (self : HdPrefixingSceneIndex Time).

(** The batch a handler sends, as the image of the batch it received. *)
Lemma PrimsAdded_sent self (entries : list AddedPrimEntry) :
  _PrimsAdded self entries
  = (fun observer =>
       (observer,
        PrimsAdded
          ((fun entry =>
              mkAddedPrimEntry (_AddPathPrefix self (added_primPath entry))
                (added_primType entry)) <$> entries))) <$> _observers self.
Proof. unfold _PrimsAdded, _SendPrimsAdded. by rewrite foldl_push_back. Qed.

Lemma PrimsRemoved_sent self (entries : list RemovedPrimEntry) :
  _PrimsRemoved self entries
  = (fun observer =>
       (observer,
        PrimsRemoved
          ((fun entry =>
              mkRemovedPrimEntry (_AddPathPrefix self (removed_primPath entry)))
             <$> entries))) <$> _observers self.
Proof. unfold _PrimsRemoved, _SendPrimsRemoved. by rewrite foldl_push_back. Qed.

Lemma PrimsDirtied_sent self (entries : list DirtiedPrimEntry) :
  _PrimsDirtied self entries
  = (fun observer =>
       (observer,
        PrimsDirtied
          ((fun entry =>
              mkDirtiedPrimEntry (_AddPathPrefix self (dirtied_primPath entry))
                (dirtied_dirtyLocators entry)) <$> entries))) <$> _observers self.
Proof. unfold _PrimsDirtied, _SendPrimsDirtied. by rewrite foldl_push_back. Qed.

(** A prim announced as added can be fetched: for a batch of absolute
    input paths, the i-th entry sent carries a path under the prefix, and
    [GetPrim] at that path is the input prim at the i-th input path, with
    its type and its data source behind a container proxy. *)
Theorem added_prims_can_be_fetched self (input : HdSceneIndexBase Time)
    (entries : list AddedPrimEntry) :
  _inputSceneIndex self = Some input ->
  IsEmpty (_prefix self) = false ->
  Forall (fun entry => IsAbsolutePath (added_primPath entry) = true) entries ->
  exists batch,
    _PrimsAdded self entries
    = (fun observer => (observer, PrimsAdded batch)) <$> _observers self /\
    Forall2
      (fun entry sent =>
         HasPrefix (added_primPath sent) (_prefix self) = true /\
         GetPrim self (added_primPath sent)
         = Ok {| primType := primType (input_GetPrim input (added_primPath entry));
                 dataSource :=
                   (fun ds => Hd_PrefixingSceneIndexContainerDataSource
                                (_prefix self) (Some ds))
                     <$> dataSource (input_GetPrim input (added_primPath entry)) |})
      entries batch.
Proof.
  intros Hin Hne Habs. eexists. split; [apply PrimsAdded_sent|].
  apply Forall2_fmap_r, Forall_Forall2_diag.
  eapply Forall_impl; [exact Habs|]. intros entry Hentry. simpl. split.
  - by apply HasPrefix_AddPathPrefix.
  - rewrite (GetPrim_delegated self input) by auto using HasPrefix_AddPathPrefix.
    by rewrite remove_add_prefix.
Qed.

(** For batches of absolute input paths, every path sent by the three
    handlers lies under the prefix, and taking the prefix off it gives the
    path received back. *)
Theorem notification_paths_strip_back self
    (added : list AddedPrimEntry) (removed : list RemovedPrimEntry)
    (dirtied : list DirtiedPrimEntry) :
  IsEmpty (_prefix self) = false ->
  Forall (fun entry => IsAbsolutePath (added_primPath entry) = true) added ->
  Forall (fun entry => IsAbsolutePath (removed_primPath entry) = true) removed ->
  Forall (fun entry => IsAbsolutePath (dirtied_primPath entry) = true) dirtied ->
  (exists batch,
     _PrimsAdded self added
     = (fun observer => (observer, PrimsAdded batch)) <$> _observers self /\
     Forall (fun sent => HasPrefix (added_primPath sent) (_prefix self) = true)
       batch /\
     (fun sent =>
        mkAddedPrimEntry (_RemovePathPrefix self (added_primPath sent))
          (added_primType sent)) <$> batch = added) /\
  (exists batch,
     _PrimsRemoved self removed
     = (fun observer => (observer, PrimsRemoved batch)) <$> _observers self /\
     Forall (fun sent => HasPrefix (removed_primPath sent) (_prefix self) = true)
       batch /\
     (fun sent =>
        mkRemovedPrimEntry (_RemovePathPrefix self (removed_primPath sent)))
       <$> batch = removed) /\
  (exists batch,
     _PrimsDirtied self dirtied
     = (fun observer => (observer, PrimsDirtied batch)) <$> _observers self /\
     Forall (fun sent => HasPrefix (dirtied_primPath sent) (_prefix self) = true)
       batch /\
     (fun sent =>
        mkDirtiedPrimEntry (_RemovePathPrefix self (dirtied_primPath sent))
          (dirtied_dirtyLocators sent)) <$> batch = dirtied).
Proof.
  intros Hne Hadded Hremoved Hdirtied.
  split; [|split]; eexists;
    (split; [first [apply PrimsAdded_sent | apply PrimsRemoved_sent
                   | apply PrimsDirtied_sent]|]);
    (split;
     [ apply Forall_fmap;
       (eapply Forall_impl; [eassumption|]);
       intros entry Hentry; simpl; by apply HasPrefix_AddPathPrefix
     | rewrite <- list_fmap_compose;
       etransitivity; [|apply list_fmap_id];
       apply Forall_fmap_ext;
       (eapply Forall_impl; [eassumption|]);
       intros [path ?] Hentry || intros [path] Hentry; simpl in *;
       by rewrite remove_add_prefix ]).
Qed.

(** A path that is not absolute (a relative path, the empty path) is not
    under the input scene's root: the handlers send such entries on as they
    are. *)
Theorem notifications_leave_other_paths self
    (added : list AddedPrimEntry) (removed : list RemovedPrimEntry)
    (dirtied : list DirtiedPrimEntry) :
  Forall (fun entry => IsAbsolutePath (added_primPath entry) = false) added ->
  Forall (fun entry => IsAbsolutePath (removed_primPath entry) = false) removed ->
  Forall (fun entry => IsAbsolutePath (dirtied_primPath entry) = false) dirtied ->
  _PrimsAdded self added
  = (fun observer => (observer, PrimsAdded added)) <$> _observers self /\
  _PrimsRemoved self removed
  = (fun observer => (observer, PrimsRemoved removed)) <$> _observers self /\
  _PrimsDirtied self dirtied
  = (fun observer => (observer, PrimsDirtied dirtied)) <$> _observers self.
Proof.
  intros Hadded Hremoved Hdirtied.
  rewrite PrimsAdded_sent, PrimsRemoved_sent, PrimsDirtied_sent.
  assert (forall {A : Type} (f : A -> A) (l : list A),
            Forall (fun x => f x = x) l -> f <$> l = l) as Hid.
  { intros A f l Hl. etransitivity; [|apply list_fmap_id].
    by apply Forall_fmap_ext. }
  rewrite !Hid; [done| | |];
    (eapply Forall_impl; [eassumption|]);
    intros entry Hentry; destruct entry; simpl in *;
    unfold _AddPathPrefix; by rewrite ReplacePrefix_root_not_absolute.
Qed.

End Announced.

(** ** Filters in a chain *)

Section Chain.

Context {Time : Type}.

(** The three cases of [GetChildPrimPaths] and the two of [GetPrim] for an
    absolute prefix and an absolute query path, on the token lists. *)
Lemma children_abs_under (input : HdSceneIndexBase Time)
    (pe s : list TfToken) (observers : list HdSceneIndexObserverPtr) :
  GetChildPrimPaths
    (mkHdPrefixingSceneIndex (Some input) (SdfPath_Absolute pe) observers)
    (SdfPath_Absolute (pe ++ s))
  = Ok ((fun c => AppendPath (SdfPath_Absolute pe)
                    (MakeRelativePath c AbsoluteRootPath))
          <$> input_GetChildPrimPaths input (SdfPath_Absolute s)).
Proof.
  rewrite (GetChildPrimPaths_delegated _ input);
    [|done|simpl; apply bool_decide_eq_true; by apply prefix_app_r].
  unfold _RemovePathPrefix. cbn [_prefix].
  assert (ReplacePrefix (SdfPath_Absolute (pe ++ s)) (SdfPath_Absolute pe)
            AbsoluteRootPath = SdfPath_Absolute s) as ->
    by exact (ReplacePrefix_to_root (SdfPath_Absolute pe) s eq_refl).
  done.
Qed.

Lemma children_abs_junction (input : option (HdSceneIndexBase Time))
    (r : list TfToken) (token : TfToken) (rest : list TfToken)
    (observers : list HdSceneIndexObserverPtr) :
  GetChildPrimPaths
    (mkHdPrefixingSceneIndex input (SdfPath_Absolute (r ++ token :: rest))
       observers)
    (SdfPath_Absolute r)
  = Ok [SdfPath_Absolute (r ++ [token])].
Proof.
  set (self := mkHdPrefixingSceneIndex input
                 (SdfPath_Absolute (r ++ token :: rest)) observers).
  assert (HasPrefix (SdfPath_Absolute r) (_prefix self) = false) as Hnot.
  { simpl. apply bool_decide_eq_false. intros Hpre%prefix_length.
    rewrite length_app in Hpre. simpl in Hpre. lia. }
  assert (HasPrefix (_prefix self) (SdfPath_Absolute r) = true) as Hanc.
  { simpl. apply bool_decide_eq_true. by apply prefix_app_r. }
  destruct (junction_lookup _ _ Hnot Hanc) as (token' & rest' & _ & Hprefix & Hlook).
  simpl in Hprefix. injection Hprefix as Hprefix.
  apply app_inv_head in Hprefix. injection Hprefix as <- _.
  unfold GetChildPrimPaths, index. by rewrite Hnot, Hanc, Hlook.
Qed.

Lemma children_abs_unrelated (input : option (HdSceneIndexBase Time))
    (pe qe : list TfToken) (observers : list HdSceneIndexObserverPtr) :
  ~ pe `prefix_of` qe ->
  ~ qe `prefix_of` pe ->
  GetChildPrimPaths
    (mkHdPrefixingSceneIndex input (SdfPath_Absolute pe) observers)
    (SdfPath_Absolute qe)
  = Ok [].
Proof.
  intros Hn1 Hn2. unfold GetChildPrimPaths. simpl.
  by rewrite !bool_decide_eq_false_2.
Qed.

Lemma prim_abs_under (input : HdSceneIndexBase Time)
    (pe s : list TfToken) (observers : list HdSceneIndexObserverPtr) :
  GetPrim
    (mkHdPrefixingSceneIndex (Some input) (SdfPath_Absolute pe) observers)
    (SdfPath_Absolute (pe ++ s))
  = Ok {| primType := primType (input_GetPrim input (SdfPath_Absolute s));
          dataSource :=
            (fun ds => Hd_PrefixingSceneIndexContainerDataSource
                         (SdfPath_Absolute pe) (Some ds))
              <$> dataSource (input_GetPrim input (SdfPath_Absolute s)) |}.
Proof.
  rewrite (GetPrim_delegated _ input);
    [|done|simpl; apply bool_decide_eq_true; by apply prefix_app_r].
  unfold _RemovePathPrefix. cbn [_prefix].
  assert (ReplacePrefix (SdfPath_Absolute (pe ++ s)) (SdfPath_Absolute pe)
            AbsoluteRootPath = SdfPath_Absolute s) as ->
    by exact (ReplacePrefix_to_root (SdfPath_Absolute pe) s eq_refl).
  done.
Qed.

Lemma prim_abs_outside (input : option (HdSceneIndexBase Time))
    (pe qe : list TfToken) (observers : list HdSceneIndexObserverPtr) :
  ~ pe `prefix_of` qe ->
  GetPrim
    (mkHdPrefixingSceneIndex input (SdfPath_Absolute pe) observers)
    (SdfPath_Absolute qe)
  = Ok {| primType := TfToken_empty; dataSource := None |}.
Proof.
  intros Hn. unfold GetPrim. simpl. by rewrite bool_decide_eq_false_2.
Qed.

(** Re-rooting under [P] and then under [Q] is re-rooting under [Q]
    followed by [P]. *)
Lemma reroot_twice (pe qe : list TfToken) (c : SdfPath) :
  AppendPath (SdfPath_Absolute qe)
    (MakeRelativePath
       (AppendPath (SdfPath_Absolute pe) (MakeRelativePath c AbsoluteRootPath))
       AbsoluteRootPath)
  = AppendPath (SdfPath_Absolute (qe ++ pe))
      (MakeRelativePath c AbsoluteRootPath).
Proof. destruct c as [|e|e]; simpl; by rewrite ?app_assoc. Qed.

(** A filter for the prefix [Q] whose input scene is a filter for the
    prefix [P] lists, for every path, the children that one filter for the
    prefix [Q] followed by [P] lists over the same input scene: the
    junctions of both prefixes, the re-rooted children of the input scene
    and the empty lists fall on the same paths. *)
Theorem chained_filters_children (input : HdSceneIndexBase Time)
    (P Q q : SdfPath) (observersP observersQ : list HdSceneIndexObserverPtr) :
  IsAbsolutePath P = true ->
  IsAbsolutePath Q = true ->
  GetChildPrimPaths
    (mkHdPrefixingSceneIndex
       (Some (as_input (mkHdPrefixingSceneIndex (Some input) P observersP)))
       Q observersQ) q
  = GetChildPrimPaths
      (mkHdPrefixingSceneIndex
         (Some input) (ReplacePrefix P AbsoluteRootPath Q) observersQ) q.
Proof.
  intros HP HQ.
  destruct P as [|pe|pe], Q as [|qq|qq]; try discriminate.
  rewrite ReplacePrefix_root. cbn [path_with_elems path_elems].
  destruct q as [|qe|qe]; [done| |done].
  destruct (decide (qq `prefix_of` qe)) as [[r ->]|Hn].
  - rewrite children_abs_under. cbn [as_input input_GetChildPrimPaths].
    destruct (decide (pe `prefix_of` r)) as [[s ->]|Hn2].
    + rewrite children_abs_under, app_assoc, children_abs_under.
      rewrite <- list_fmap_compose. f_equal. apply list_fmap_ext.
      intros i c _. apply reroot_twice.
    + destruct (decide (r `prefix_of` pe)) as [[s ->]|Hn3].
      * destruct s as [|token rest].
        { exfalso. apply Hn2. by rewrite app_nil_r. }
        rewrite children_abs_junction.
        rewrite (app_assoc qq r (token :: rest)), children_abs_junction.
        simpl. by rewrite app_assoc.
      * rewrite children_abs_unrelated by done.
        rewrite children_abs_unrelated; [done| |].
        -- by intros Hpre%prefix_app_inv.
        -- by intros Hpre%prefix_app_inv.
  - destruct (decide (qe `prefix_of` qq)) as [[s ->]|Hn2].
    + destruct s as [|token rest].
      { exfalso. apply Hn. by rewrite app_nil_r. }
      rewrite children_abs_junction.
      rewrite <- (app_assoc qe (token :: rest) pe).
      by rewrite <- app_comm_cons, children_abs_junction.
    + rewrite children_abs_unrelated by done.
      rewrite children_abs_unrelated; [done| |].
      * intros Hpre. apply Hn. by eapply prefix_app_l.
      * intros Hpre.
        destruct (prefix_weak_total qe qq (qq ++ pe)) as [?|?];
          [done|by apply prefix_app_r|done|done].
Qed.

(** The same chain answers [GetPrim] like the one filter: the same prim
    type at every path, and a data source exactly when the one filter has
    one, which is the same input data source, behind the two container
    proxies of the chain instead of the one proxy for the joined prefix. *)
Theorem chained_filters_prim (input : HdSceneIndexBase Time)
    (P Q q : SdfPath) (observersP observersQ : list HdSceneIndexObserverPtr) :
  IsAbsolutePath P = true ->
  IsAbsolutePath Q = true ->
  exists (type : TfToken) (data : HdContainerDataSourceHandle Time),
    GetPrim
      (mkHdPrefixingSceneIndex
         (Some (as_input (mkHdPrefixingSceneIndex (Some input) P observersP)))
         Q observersQ) q
    = Ok {| primType := type;
            dataSource :=
              (fun ds =>
                 Hd_PrefixingSceneIndexContainerDataSource Q
                   (Some (Hd_PrefixingSceneIndexContainerDataSource P (Some ds))))
                <$> data |} /\
    GetPrim
      (mkHdPrefixingSceneIndex
         (Some input) (ReplacePrefix P AbsoluteRootPath Q) observersQ) q
    = Ok {| primType := type;
            dataSource :=
              (fun ds =>
                 Hd_PrefixingSceneIndexContainerDataSource
                   (ReplacePrefix P AbsoluteRootPath Q) (Some ds))
                <$> data |}.
Proof.
  intros HP HQ.
  destruct P as [|pe|pe], Q as [|qq|qq]; try discriminate.
  rewrite ReplacePrefix_root. cbn [path_with_elems path_elems].
  destruct q as [|qe|qe]; [by exists TfToken_empty, None| |by exists TfToken_empty, None].
  destruct (decide (qq `prefix_of` qe)) as [[r ->]|Hn].
  - rewrite prim_abs_under. cbn [as_input input_GetPrim].
    destruct (decide (pe `prefix_of` r)) as [[s ->]|Hn2].
    + rewrite prim_abs_under, app_assoc, prim_abs_under.
      exists (primType (input_GetPrim input (SdfPath_Absolute s))),
             (dataSource (input_GetPrim input (SdfPath_Absolute s))).
      split; [|done]. simpl.
      by destruct (dataSource (input_GetPrim input (SdfPath_Absolute s))).
    + rewrite prim_abs_outside by done.
      rewrite prim_abs_outside by by intros Hpre%prefix_app_inv.
      by exists TfToken_empty, None.
  - rewrite prim_abs_outside by done.
    rewrite prim_abs_outside by (intros Hpre; apply Hn; by eapply prefix_app_l).
    by exists TfToken_empty, None.
Qed.

(** A filter for the root prefix is transparent for absolute paths: it
    adds and removes nothing, lists the input scene's absolute children as
    they are, and returns the input prim with its data source behind a
    container proxy. *)
Theorem root_prefix_filter (self : HdPrefixingSceneIndex Time)
    (input : HdSceneIndexBase Time) (q : SdfPath) :
  _inputSceneIndex self = Some input ->
  _prefix self = AbsoluteRootPath ->
  IsAbsolutePath q = true ->
  Forall (fun c => IsAbsolutePath c = true) (input_GetChildPrimPaths input q) ->
  _AddPathPrefix self q = q /\
  _RemovePathPrefix self q = q /\
  GetChildPrimPaths self q = Ok (input_GetChildPrimPaths input q) /\
  GetPrim self q
  = Ok {| primType := primType (input_GetPrim input q);
          dataSource :=
            (fun ds => Hd_PrefixingSceneIndexContainerDataSource
                         AbsoluteRootPath (Some ds))
              <$> dataSource (input_GetPrim input q) |}.
Proof.
  intros Hin Hroot Hq Habs.
  destruct self as [inp prefix observers]. simpl in Hin, Hroot. subst inp prefix.
  destruct q as [|qe|qe]; try discriminate.
  assert (_RemovePathPrefix
            (mkHdPrefixingSceneIndex (Some input) AbsoluteRootPath observers)
            (SdfPath_Absolute qe) = SdfPath_Absolute qe) as Hremove.
  { unfold _RemovePathPrefix. simpl. apply ReplacePrefix_root. }
  split; [apply ReplacePrefix_root|]. split; [done|]. split.
  - pose proof (children_abs_under input [] qe observers) as Hc.
    simpl in Hc. unfold AbsoluteRootPath. rewrite Hc. f_equal.
    etransitivity; [|apply list_fmap_id].
    apply Forall_fmap_ext. eapply Forall_impl; [exact Habs|].
    by intros [|e|e] Hc'.
  - pose proof (prim_abs_under input [] qe observers) as Hp.
    simpl in Hp. unfold AbsoluteRootPath. by rewrite Hp.
Qed.

End Chain.

(** ** Names behind proxies *)

Section ContainerLayers.

Context {Time : Type}.

(** [Has] and [GetNames] asked through any number of container proxies are
    those of the container at the bottom; with a null handle at the bottom
    no name is there and the list of names is empty. *)
Theorem names_through_layers (Q : SdfPath) (prefixes : list SdfPath)
    (base : HdContainerDataSourceHandle Time) (name : TfToken) :
  Has (Hd_PrefixingSceneIndexContainerDataSource Q (container_layers prefixes base))
      name
  = match base with Some container => Has container name | None => false end /\
  GetNames
    (Hd_PrefixingSceneIndexContainerDataSource Q (container_layers prefixes base))
  = match base with Some container => GetNames container | None => [] end.
Proof.
  revert Q. induction prefixes as [|P prefixes IH]; intros Q.
  - by destruct base.
  - cbn [container_layers]. destruct (IH P) as [<- <-]. done.
Qed.

End ContainerLayers.

(** ** The prim adapters *)

(** The points adapter answers for exactly the subprims it lists: a
    subprim has a prim type, and a data source, exactly when it is in
    [GetImagingSubprims()]; any other subprim has the empty type and the
    null data source. *)
Theorem points_subprims_agree {Time : Type}
    (HdPrimTypeTokens_points : TfToken)
    (UsdPrim UsdImagingDataSourceStageGlobals : Type)
    (UsdPrim_GetPath : UsdPrim -> SdfPath)
    (UsdImagingDataSourcePointsPrim_New :
       SdfPath -> UsdPrim -> UsdImagingDataSourceStageGlobals ->
       HdContainerDataSource Time)
    (subprim : TfToken) (prim : UsdPrim)
    (stageGlobals : UsdImagingDataSourceStageGlobals) :
  HdPrimTypeTokens_points <> TfToken_empty ->
  (subprim ∈ UsdImagingPointsAdapter.GetImagingSubprims
   <-> UsdImagingPointsAdapter.GetImagingSubprimType
         HdPrimTypeTokens_points subprim <> TfToken_empty) /\
  (subprim ∈ UsdImagingPointsAdapter.GetImagingSubprims
   <-> is_Some
         (UsdImagingPointsAdapter.GetImagingSubprimData
            UsdPrim UsdImagingDataSourceStageGlobals UsdPrim_GetPath
            UsdImagingDataSourcePointsPrim_New subprim prim stageGlobals)).
Proof.
  intros Hpoints.
  unfold UsdImagingPointsAdapter.GetImagingSubprims,
    UsdImagingPointsAdapter.GetImagingSubprimType,
    UsdImagingPointsAdapter.GetImagingSubprimData, TfToken_IsEmpty.
  rewrite list_elem_of_singleton.
  case_bool_decide as Hempty; split; split; done.
Qed.

(** [Populate] of the generative procedural adapter inserts exactly one
    rprim, at the prim's own path, which is also the path it returns, and
    never with an empty prim type: the type is the token held by the
    [proceduralSystem] attribute when there is one and it is not empty, and
    [inertGenerativeProcedural] in every other case. *)
Theorem generative_Populate_type
    (prim : UsdProcImagingGenerativeProceduralAdapter.UsdPrim) :
  exists rprimType,
    UsdProcImagingGenerativeProceduralAdapter.Populate prim
    = (UsdProcImagingGenerativeProceduralAdapter.GetPath prim,
       [UsdProcImagingGenerativeProceduralAdapter.InsertRprim rprimType
          (UsdProcImagingGenerativeProceduralAdapter.GetPath prim) prim]) /\
    rprimType <> TfToken_empty /\
    rprimType
    = match UsdProcImagingGenerativeProceduralAdapter.GetProceduralSystemAttr prim
      with
      | Some {| UsdProcImagingGenerativeProceduralAdapter.attribute_Get :=
                  Some (UsdProcImagingGenerativeProceduralAdapter.HoldsTfToken
                          (String c rest)) |} => String c rest
      | _ =>
          UsdProcImagingGenerativeProceduralAdapter._tokens_inertGenerativeProcedural
      end.
Proof.
  unfold UsdProcImagingGenerativeProceduralAdapter.Populate.
  destruct prim as [path [[[[| [|c rest] |]|]]|]]; simpl;
    eexists; (split; [reflexivity|]); by split.
Qed.

(** ** The further properties at the example scene *)

Lemma path_proxy_value_strips_back_witness :
  IsEmpty prefix_ABCD = false /\
  IsAbsolutePath (GetTypedValue leaf_FooBar 0) = true /\
  HasPrefix
    (GetTypedValue
       (Hd_PrefixingSceneIndexPathDataSource prefix_ABCD (Some leaf_FooBar)) 0)
    prefix_ABCD = true /\
  ReplacePrefix
    (GetTypedValue
       (Hd_PrefixingSceneIndexPathDataSource prefix_ABCD (Some leaf_FooBar)) 0)
    prefix_ABCD AbsoluteRootPath
  = SdfPath_Absolute ["Foo"; "Bar"].
Proof.
  split; [reflexivity|]. split; [reflexivity|].
  exact (path_proxy_value_strips_back prefix_ABCD leaf_FooBar 0 eq_refl eq_refl).
Defined.

Lemma container_proxy_keeps_agreement_witness :
  (forall name,
     (Has container_inner name = true <-> is_Some (Get container_inner name)) /\
     (name ∈ GetNames container_inner <-> is_Some (Get container_inner name))) /\
  forall name,
    (Has (Hd_PrefixingSceneIndexContainerDataSource prefix_A (Some container_inner))
         name = true
     <-> is_Some
           (Get (Hd_PrefixingSceneIndexContainerDataSource
                   prefix_A (Some container_inner)) name)) /\
    (name ∈ GetNames
              (Hd_PrefixingSceneIndexContainerDataSource
                 prefix_A (Some container_inner))
     <-> is_Some
           (Get (Hd_PrefixingSceneIndexContainerDataSource
                   prefix_A (Some container_inner)) name)).
Proof.
  assert (forall name,
            (Has container_inner name = true
             <-> is_Some (Get container_inner name)) /\
            (name ∈ GetNames container_inner
             <-> is_Some (Get container_inner name))) as Hagree.
  { intros name. simpl. rewrite list_elem_of_singleton.
    case_bool_decide as Hname; (split; split; intros H; try done);
      try (by destruct H); by eexists. }
  split; [exact Hagree|].
  exact (container_proxy_keeps_agreement prefix_A container_inner Hagree).
Defined.

Lemma deep_path_leaf_rewritten_witness :
  GetAt container_mesh ["primvars"; "target"] = Some (PathDataSource leaf_FooBar) /\
  exists leaf',
    GetAt mesh_once ["primvars"; "target"] = Some (PathDataSource leaf') /\
    forall t, GetTypedValue leaf' t = SdfPath_Absolute ["A"; "Foo"; "Bar"].
Proof.
  split; [reflexivity|].
  exact (deep_path_leaf_rewritten prefix_A container_mesh
           ["primvars"; "target"] leaf_FooBar eq_refl).
Defined.

Lemma GetPrim_at_prefixed_path_witness :
  _inputSceneIndex filter_XY = Some scene_XY /\
  IsEmpty (_prefix filter_XY) = false /\
  IsAbsolutePath path_X = true /\
  GetPrim filter_XY path_ABCDX
  = Ok {| primType := "mesh";
          dataSource :=
            Some (Hd_PrefixingSceneIndexContainerDataSource
                    prefix_ABCD (Some container_mesh)) |}.
Proof.
  split; [reflexivity|]. split; [reflexivity|]. split; [reflexivity|].
  exact (GetPrim_at_prefixed_path filter_XY scene_XY path_X
           eq_refl eq_refl eq_refl).
Defined.

Lemma AddPathPrefix_injective_witness :
  IsEmpty (_prefix filter_XY) = false /\
  IsAbsolutePath path_X = true /\
  _AddPathPrefix filter_XY path_X = _AddPathPrefix filter_XY path_X /\
  path_X = path_X.
Proof.
  split; [reflexivity|]. split; [reflexivity|]. split; [reflexivity|].
  exact (AddPathPrefix_injective filter_XY path_X path_X
           eq_refl eq_refl eq_refl eq_refl).
Defined.

Lemma children_under_prefix_resolve_witness :
  _inputSceneIndex filter_XY = Some scene_XY /\
  IsEmpty (_prefix filter_XY) = false /\
  HasPrefix prefix_ABCD (_prefix filter_XY) = true /\
  Forall (fun c => IsAbsolutePath c = true)
    (input_GetChildPrimPaths scene_XY (_RemovePathPrefix filter_XY prefix_ABCD)) /\
  exists children,
    GetChildPrimPaths filter_XY prefix_ABCD = Ok children /\
    Forall (fun c => HasPrefix c prefix_ABCD = true) children /\
    _RemovePathPrefix filter_XY <$> children
    = [SdfPath_Absolute ["X"]; SdfPath_Absolute ["Y"]].
Proof.
  assert (Forall (fun c => IsAbsolutePath c = true)
            (input_GetChildPrimPaths scene_XY
               (_RemovePathPrefix filter_XY prefix_ABCD))) as Habs
    by (vm_compute; repeat constructor).
  split; [reflexivity|]. split; [reflexivity|]. split; [reflexivity|].
  split; [exact Habs|].
  destruct (children_under_prefix_resolve filter_XY scene_XY prefix_ABCD
              eq_refl eq_refl eq_refl Habs)
    as (children & Hchildren & _ & Hunder & Hback & _).
  exists children. exact (conj Hchildren (conj Hunder Hback)).
Defined.

Lemma junction_chain_witness :
  _prefix filter_XY = SdfPath_Absolute ["A"; "B"; "C"; "D"] /\
  2 < length ["A"; "B"; "C"; "D"] /\
  GetPrim filter_XY path_AB
  = Ok {| primType := TfToken_empty; dataSource := None |} /\
  GetChildPrimPaths filter_XY path_AB = Ok [SdfPath_Absolute ["A"; "B"; "C"]].
Proof.
  assert (2 < length ["A"; "B"; "C"; "D"]) as Hk by (simpl; lia).
  split; [reflexivity|]. split; [exact Hk|].
  exact (junction_chain filter_XY ["A"; "B"; "C"; "D"] 2 eq_refl Hk).
Defined.

Lemma added_prims_can_be_fetched_witness :
  _inputSceneIndex filter_XY = Some scene_XY /\
  IsEmpty (_prefix filter_XY) = false /\
  Forall (fun entry => IsAbsolutePath (added_primPath entry) = true)
    [mkAddedPrimEntry path_X "mesh"] /\
  exists batch,
    _PrimsAdded filter_XY [mkAddedPrimEntry path_X "mesh"]
    = (fun observer => (observer, PrimsAdded batch)) <$> _observers filter_XY /\
    length batch = 1.
Proof.
  assert (Forall (fun entry => IsAbsolutePath (added_primPath entry) = true)
            [mkAddedPrimEntry path_X "mesh"]) as Habs by repeat constructor.
  split; [reflexivity|]. split; [reflexivity|]. split; [exact Habs|].
  destruct (added_prims_can_be_fetched filter_XY scene_XY
              [mkAddedPrimEntry path_X "mesh"] eq_refl eq_refl Habs)
    as (batch & Hsent & Hfetch).
  exists batch. split; [exact Hsent|].
  symmetry. exact (Forall2_length _ _ _ Hfetch).
Defined.

Lemma notification_paths_strip_back_witness :
  IsEmpty (_prefix filter_XY) = false /\
  Forall (fun entry => IsAbsolutePath (added_primPath entry) = true)
    [mkAddedPrimEntry path_X "mesh"] /\
  Forall (fun entry => IsAbsolutePath (removed_primPath entry) = true)
    [mkRemovedPrimEntry path_X] /\
  Forall (fun entry => IsAbsolutePath (dirtied_primPath entry) = true)
    [mkDirtiedPrimEntry path_X [["points"]]] /\
  exists batch,
    _PrimsRemoved filter_XY [mkRemovedPrimEntry path_X]
    = (fun observer => (observer, PrimsRemoved batch)) <$> _observers filter_XY /\
    (fun sent =>
       mkRemovedPrimEntry (_RemovePathPrefix filter_XY (removed_primPath sent)))
      <$> batch = [mkRemovedPrimEntry path_X].
Proof.
  assert (Forall (fun entry => IsAbsolutePath (added_primPath entry) = true)
            [mkAddedPrimEntry path_X "mesh"]) as Ha by repeat constructor.
  assert (Forall (fun entry => IsAbsolutePath (removed_primPath entry) = true)
            [mkRemovedPrimEntry path_X]) as Hr by repeat constructor.
  assert (Forall (fun entry => IsAbsolutePath (dirtied_primPath entry) = true)
            [mkDirtiedPrimEntry path_X [["points"]]]) as Hd by repeat constructor.
  split; [reflexivity|]. split; [exact Ha|]. split; [exact Hr|]. split; [exact Hd|].
  destruct (notification_paths_strip_back filter_XY _ _ _ eq_refl Ha Hr Hd)
    as (_ & (batch & Hsent & _ & Hback) & _).
  exists batch. exact (conj Hsent Hback).
Defined.

Lemma notifications_leave_other_paths_witness :
  Forall (fun entry => IsAbsolutePath (added_primPath entry) = false)
    [mkAddedPrimEntry (SdfPath_Relative ["X"]) "mesh"] /\
  Forall (fun entry => IsAbsolutePath (removed_primPath entry) = false)
    [mkRemovedPrimEntry SdfPath_Empty] /\
  Forall (fun entry => IsAbsolutePath (dirtied_primPath entry) = false)
    [mkDirtiedPrimEntry (SdfPath_Relative ["X"]) []] /\
  _PrimsAdded filter_XY [mkAddedPrimEntry (SdfPath_Relative ["X"]) "mesh"]
  = (fun observer =>
       (observer, PrimsAdded [mkAddedPrimEntry (SdfPath_Relative ["X"]) "mesh"]))
      <$> _observers filter_XY /\
  _PrimsRemoved filter_XY [mkRemovedPrimEntry SdfPath_Empty]
  = (fun observer => (observer, PrimsRemoved [mkRemovedPrimEntry SdfPath_Empty]))
      <$> _observers filter_XY /\
  _PrimsDirtied filter_XY [mkDirtiedPrimEntry (SdfPath_Relative ["X"]) []]
  = (fun observer =>
       (observer, PrimsDirtied [mkDirtiedPrimEntry (SdfPath_Relative ["X"]) []]))
      <$> _observers filter_XY.
Proof.
  assert (Forall (fun entry => IsAbsolutePath (added_primPath entry) = false)
            [mkAddedPrimEntry (SdfPath_Relative ["X"]) "mesh"]) as Ha
    by repeat constructor.
  assert (Forall (fun entry => IsAbsolutePath (removed_primPath entry) = false)
            [mkRemovedPrimEntry SdfPath_Empty]) as Hr by repeat constructor.
  assert (Forall (fun entry => IsAbsolutePath (dirtied_primPath entry) = false)
            [mkDirtiedPrimEntry (SdfPath_Relative ["X"]) []]) as Hd
    by repeat constructor.
  split; [exact Ha|]. split; [exact Hr|]. split; [exact Hd|].
  exact (notifications_leave_other_paths filter_XY _ _ _ Ha Hr Hd).
Defined.

Lemma chained_filters_children_witness :
  IsAbsolutePath (SdfPath_Absolute ["C"; "D"]) = true /\
  IsAbsolutePath path_AB = true /\
  GetChildPrimPaths
    (mkHdPrefixingSceneIndex
       (Some (as_input
                (mkHdPrefixingSceneIndex
                   (Some scene_XY) (SdfPath_Absolute ["C"; "D"]) [])))
       path_AB [1; 2])
    prefix_ABCD
  = GetChildPrimPaths filter_XY prefix_ABCD.
Proof.
  split; [reflexivity|]. split; [reflexivity|].
  exact (chained_filters_children scene_XY (SdfPath_Absolute ["C"; "D"]) path_AB
           prefix_ABCD [] [1; 2] eq_refl eq_refl).
Defined.

Lemma chained_filters_prim_witness :
  IsAbsolutePath (SdfPath_Absolute ["C"; "D"]) = true /\
  IsAbsolutePath path_AB = true /\
  exists (type : TfToken) (data : HdContainerDataSourceHandle Frame),
    GetPrim
      (mkHdPrefixingSceneIndex
         (Some (as_input
                  (mkHdPrefixingSceneIndex
                     (Some scene_XY) (SdfPath_Absolute ["C"; "D"]) [])))
         path_AB [1; 2])
      path_ABCDX
    = Ok {| primType := type;
            dataSource :=
              (fun ds =>
                 Hd_PrefixingSceneIndexContainerDataSource path_AB
                   (Some (Hd_PrefixingSceneIndexContainerDataSource
                            (SdfPath_Absolute ["C"; "D"]) (Some ds))))
                <$> data |} /\
    GetPrim filter_XY path_ABCDX
    = Ok {| primType := type;
            dataSource :=
              (fun ds =>
                 Hd_PrefixingSceneIndexContainerDataSource prefix_ABCD (Some ds))
                <$> data |}.
Proof.
  split; [reflexivity|]. split; [reflexivity|].
  exact (chained_filters_prim scene_XY (SdfPath_Absolute ["C"; "D"]) path_AB
           path_ABCDX [] [1; 2] eq_refl eq_refl).
Defined.

Lemma root_prefix_filter_witness :
  _inputSceneIndex (mkHdPrefixingSceneIndex (Some scene_XY) AbsoluteRootPath [1])
  = Some scene_XY /\
  _prefix (mkHdPrefixingSceneIndex (Some scene_XY) AbsoluteRootPath [1])
  = AbsoluteRootPath /\
  IsAbsolutePath AbsoluteRootPath = true /\
  Forall (fun c => IsAbsolutePath c = true)
    (input_GetChildPrimPaths scene_XY AbsoluteRootPath) /\
  GetChildPrimPaths
    (mkHdPrefixingSceneIndex (Some scene_XY) AbsoluteRootPath [1])
    AbsoluteRootPath
  = Ok [SdfPath_Absolute ["X"]; SdfPath_Absolute ["Y"]].
Proof.
  assert (Forall (fun c => IsAbsolutePath c = true)
            (input_GetChildPrimPaths scene_XY AbsoluteRootPath)) as Habs
    by (vm_compute; repeat constructor).
  split; [reflexivity|]. split; [reflexivity|]. split; [reflexivity|].
  split; [exact Habs|].
  exact (proj1 (proj2 (proj2
           (root_prefix_filter
              (mkHdPrefixingSceneIndex (Some scene_XY) AbsoluteRootPath [1])
              scene_XY AbsoluteRootPath eq_refl eq_refl eq_refl Habs)))).
Defined.

Lemma points_subprims_agree_witness :
  ("points" : TfToken) <> TfToken_empty /\
  (TfToken_empty ∈ UsdImagingPointsAdapter.GetImagingSubprims
   <-> UsdImagingPointsAdapter.GetImagingSubprimType "points" TfToken_empty
       <> TfToken_empty) /\
  (TfToken_empty ∈ UsdImagingPointsAdapter.GetImagingSubprims
   <-> is_Some
         (UsdImagingPointsAdapter.GetImagingSubprimData
            SdfPath unit (fun prim => prim)
            (fun _ _ _ => container_mesh) TfToken_empty path_X tt)).
Proof.
  assert (("points" : TfToken) <> TfToken_empty) as Hpoints by discriminate.
  split; [exact Hpoints|].
  exact (points_subprims_agree "points" SdfPath unit (fun prim => prim)
           (fun _ _ _ => container_mesh) TfToken_empty path_X tt Hpoints).
Defined.

Lemma queries_total_witness :
  _inputSceneIndex filter_XY = Some scene_XY /\
  (exists prim, GetPrim filter_XY path_ABCDX = Ok prim) /\
  (exists paths, GetChildPrimPaths filter_XY path_ABCDX = Ok paths).
Proof.
  split; [reflexivity|].
  exact (queries_total filter_XY scene_XY path_ABCDX eq_refl).
Defined.

(** C4 fails as stated: the filter takes any path as its prefix, and with
    the empty path [SdfPath()] as prefix, adding the prefix to the absolute
    path [/X] gives the empty path, from which removing the prefix does not
    give [/X] back. *)
Lemma empty_prefix_breaks_round_trip :
  IsAbsolutePath path_X = true /\
  _AddPathPrefix
    (mkHdPrefixingSceneIndex (Some scene_XY) SdfPath_Empty [1; 2]) path_X
  = SdfPath_Empty /\
  _RemovePathPrefix
    (mkHdPrefixingSceneIndex (Some scene_XY) SdfPath_Empty [1; 2])
    (_AddPathPrefix
       (mkHdPrefixingSceneIndex (Some scene_XY) SdfPath_Empty [1; 2]) path_X)
  = SdfPath_Empty /\
  _RemovePathPrefix
    (mkHdPrefixingSceneIndex (Some scene_XY) SdfPath_Empty [1; 2])
    (_AddPathPrefix
       (mkHdPrefixingSceneIndex (Some scene_XY) SdfPath_Empty [1; 2]) path_X)
  <> path_X.
Proof.
  split; [reflexivity|]. split; [reflexivity|]. split; [reflexivity|].
  vm_compute. discriminate.
Qed.
